(** * github-to-markdown: the conversion pipeline of [app.py]

    A shallow embedding of the Flask application [app.py] and the
    properties its specification states about it.

    - Python [str] values are sequences of Unicode code points, so a
      string is a [list N]; literals are written [u "..."].
    - JSON bodies and the Python objects built from them are values of
      the inductive type [value].
    - [requests.get] is the only interaction with the outside world.  A
      computation is a tree ([prog]) whose nodes are the requests it
      sends and whose leaves are the value it returns or the exception
      it raises; [run] executes such a tree against an arbitrary
      stateful network.
    - [print] writes to the server's standard output and raises
      [UnicodeEncodeError] when that stream cannot encode the text.
      Whether it can is a parameter of the pipeline ([stdout_ok]), as
      is the text [str(e)] of an exception ([exn_str]); each [print] of
      the functions below is a step of the model, at the place the
      code has it.  The two [print] calls that run when the module is
      imported come before every request and are not modelled. *)

From Stdlib Require Import Ascii String.
From Stdlib Require Import List NArith ZArith Bool Lia DecimalString.
Import ListNotations.

Set Implicit Arguments.
Set Warnings "-register-all".

(** ** Strings *)

Definition char := N.
Definition str := list char.

(** The code points of an ASCII literal. *)
Definition u (s : string) : str := map N_of_ascii (list_ascii_of_string s).

Definition nl : char := 10%N.

Definition char_eqb (a b : char) : bool := N.eqb a b.

Fixpoint str_eqb (a b : str) : bool :=
  match a, b with
  | [], [] => true
  | x :: a', y :: b' => char_eqb x y && str_eqb a' b'
  | _, _ => false
  end.

(** [sep.join(parts)] *)
Fixpoint join (sep : str) (parts : list str) : str :=
  match parts with
  | [] => []
  | [p] => p
  | p :: ps => p ++ sep ++ join sep ps
  end.

(** [s.endswith(suffix)] *)
Definition endswith (s suffix : str) : bool :=
  (length suffix <=? length s)%nat
  && str_eqb (skipn (length s - length suffix) s) suffix.

(** [s[:-4]] : everything but the last four code points. *)
Definition drop_last4 (s : str) : str := firstn (length s - 4) s.

(** ** Regular expressions

    The fragment of Python's [re] syntax that the two URL patterns use:
    single-character classes, the greedy quantifiers [?], [*] and [+]
    applied to such a class, numbered groups and concatenation.
    Matching is by backtracking, as in [re]: a quantifier first takes as
    many characters as it can and gives them back one at a time while
    the rest of the pattern fails. *)

Module Re.

Inductive cset : Type :=
| Lit (c : char)      (* the character itself; [\.] is [Lit "."]   *)
| Except (c : char)   (* [[^c]]                                    *)
| Dot.                (* [.] : anything but a newline              *)

Definition mem (cs : cset) (c : char) : bool :=
  match cs with
  | Lit a => char_eqb c a
  | Except a => negb (char_eqb c a)
  | Dot => negb (char_eqb c nl)
  end.

Inductive regex : Type :=
| Chr (cs : cset)
| Opt (cs : cset)
| Star (cs : cset)
| Plus (cs : cset)
| Group (n : nat) (r : regex)
| Seq (r1 r2 : regex)
| Eps.

(** What a successful match remembers: the text of each group. *)
Definition captures := list (nat * str).

Fixpoint group (n : nat) (m : captures) : option str :=
  match m with
  | [] => None
  | (i, t) :: m' => if Nat.eqb i n then Some t else group n m'
  end.

Section Matcher.
Variable A : Type.

(** A continuation receives the text just matched, the text still
    to be read, and the groups closed so far. *)
Definition cont := str -> str -> captures -> option A.

Definition orelse (a b : option A) : option A :=
  match a with
  | Some x => Some x
  | None => b
  end.

(** Greedy repetition of a character class: the longest run first,
    then each shorter one.  [acc] is the run read so far. *)
Fixpoint greedy (cs : cset) (acc s : str) (k : str -> str -> option A)
  : option A :=
  match s with
  | c :: s' =>
      if mem cs c
      then orelse (greedy cs (acc ++ [c]) s' k) (k acc s)
      else k acc s
  | [] => k acc s
  end.

Fixpoint exec (r : regex) (s : str) (m : captures) (k : cont)
  : option A :=
  match r with
  | Eps => k [] s m
  | Chr cs =>
      match s with
      | c :: s' => if mem cs c then k [c] s' m else None
      | [] => None
      end
  | Opt cs =>
      match s with
      | c :: s' =>
          if mem cs c then orelse (k [c] s' m) (k [] s m) else k [] s m
      | [] => k [] s m
      end
  | Star cs => greedy cs [] s (fun t s' => k t s' m)
  | Plus cs =>
      match s with
      | c :: s' =>
          if mem cs c then greedy cs [c] s' (fun t s' => k t s' m)
          else None
      | [] => None
      end
  | Group n r1 => exec r1 s m (fun t s' m' => k t s' ((n, t) :: m'))
  | Seq r1 r2 =>
      exec r1 s m (fun t1 s1 m1 =>
      exec r2 s1 m1 (fun t2 s2 m2 => k (t1 ++ t2) s2 m2))
  end.
End Matcher.

(** A run of [cs] cannot go on into [s]: [s] is empty or starts with
    a character outside [cs]. *)
Definition stops (cs : cset) (s : str) : bool :=
  match s with
  | [] => true
  | c :: _ => negb (mem cs c)
  end.

(** The numbers of the groups of a pattern, last closed first. *)
Fixpoint group_ids (r : regex) : list nat :=
  match r with
  | Group n r1 => n :: group_ids r1
  | Seq r1 r2 => group_ids r2 ++ group_ids r1
  | _ => []
  end.

(** Every group of the pattern is a run [cs+] whose text, for any
    non-empty run of [cs], satisfies [P]. *)
Fixpoint group_ok (P : nat * str -> Prop) (r : regex) : Prop :=
  match r with
  | Group n (Plus cs) =>
      forall t, t <> [] -> forallb (mem cs) t = true -> P (n, t)
  | Group _ _ => False
  | Seq r1 r2 => group_ok P r1 /\ group_ok P r2
  | _ => True
  end.

(** [re.match(pattern, s)]: anchored at the start of [s], not at its
    end. *)
Definition re_match (r : regex) (s : str) : option captures :=
  exec r s [] (fun _ _ m => Some m).

(** [match.groups()] of a pattern with two groups. *)
Definition groups (m : captures) : option str * option str :=
  (group 1 m, group 2 m).

(** A literal run of characters. *)
Fixpoint lit (s : str) : regex :=
  match s with
  | [] => Eps
  | c :: s' => Seq (Chr (Lit c)) (lit s')
  end.

End Re.

Import Re.

Declare Scope re_scope.
Delimit Scope re_scope with re.
Infix ";;" := Seq (at level 61, right associativity) : re_scope.

Definition slash : char := 47%N.
Definition dot : char := 46%N.

(** No [/] in [s]. *)
Definition no_slash (s : str) : bool :=
  forallb (fun c => negb (char_eqb c slash)) s.

(** [r"https?://github\.com/([^/]+)/([^/]+)/?.*"] *)
Definition pattern_https : regex :=
  (lit (u "http") ;; Opt (Lit 115%N) ;; lit (u "://github") ;;
   Chr (Lit dot) ;; lit (u "com/") ;;
   Group 1 (Plus (Except slash)) ;; Chr (Lit slash) ;;
   Group 2 (Plus (Except slash)) ;; Opt (Lit slash) ;; Star Dot)%re.

(** [r"git@github\.com:([^/]+)/([^/]+)\.git"] *)
Definition pattern_ssh : regex :=
  (lit (u "git@github") ;; Chr (Lit dot) ;; lit (u "com:") ;;
   Group 1 (Plus (Except slash)) ;; Chr (Lit slash) ;;
   Group 2 (Plus (Except slash)) ;; Chr (Lit dot) ;; lit (u "git"))%re.

Definition patterns : list regex := [pattern_https; pattern_ssh].

(** ** [parse_github_url] *)

Definition strip_git (repo : str) : str :=
  if endswith repo (u ".git") then drop_last4 repo else repo.

(** The loop over [patterns]; [(None, None)] when none matches.  Both
    groups are mandatory in both patterns, so [repo] is a string
    whenever [repo.endswith] is reached. *)
Fixpoint parse_with (ps : list regex) (url : str) : option str * option str :=
  match ps with
  | [] => (None, None)
  | pattern :: ps' =>
      match re_match pattern url with
      | Some m =>
          let '(owner, repo) := groups m in
          (owner, option_map strip_git repo)
      | None => parse_with ps' url
      end
  end.

Definition parse_github_url (url : str) : option str * option str :=
  parse_with patterns url.

(** ** Python values

    What [response.json()] returns, and the objects the code builds from
    it.  JSON numbers with a fractional part are not represented; no
    function below looks at a number other than through its truth
    value. *)

Inductive value : Type :=
| VNone
| VBool (b : bool)
| VInt (z : Z)
| VStr (s : str)
| VList (l : list value)
| VDict (d : list (str * value)).

(** Exception classes.  All of them derive from [Exception];
    [UnicodeDecodeError] derives from [ValueError]. *)
Inductive exn : Type :=
| RequestException
| AttributeError
| KeyError
| TypeError
| ValueError
| UnicodeDecodeError
| UnicodeEncodeError
| BinasciiError.

Definition is_RequestException (e : exn) : bool :=
  match e with RequestException => true | _ => false end.

Definition is_UnicodeDecodeError (e : exn) : bool :=
  match e with UnicodeDecodeError => true | _ => false end.

(** [except Exception] *)
Definition is_Exception (e : exn) : bool := true.

(** The outcome of an expression: a value or a raised exception. *)
Inductive res (A : Type) : Type :=
| Ok (a : A)
| Err (e : exn).
Arguments Err {A} e.

Definition res_bind {A B} (r : res A) (f : A -> res B) : res B :=
  match r with
  | Ok a => f a
  | Err e => Err e
  end.

Declare Scope res_scope.
Delimit Scope res_scope with res.
Notation "'let?' x ':=' r 'in' q" := (res_bind r (fun x => q))
  (at level 10, x name, r at level 100, q at level 200) : res_scope.

(** [bool(v)] *)
Definition truthy (v : value) : bool :=
  match v with
  | VNone => false
  | VBool b => b
  | VInt z => negb (Z.eqb z 0)
  | VStr s => match s with [] => false | _ => true end
  | VList l => match l with [] => false | _ => true end
  | VDict d => match d with [] => false | _ => true end
  end.

(** Truth value of a string: non-empty. *)
Definition truthy_str (s : str) : bool :=
  match s with [] => false | _ => true end.

(** [v == 'literal'] *)
Definition eq_str (v : value) (s : str) : bool :=
  match v with
  | VStr t => str_eqb t s
  | _ => false
  end.

Fixpoint lookup (key : str) (d : list (str * value)) : option value :=
  match d with
  | [] => None
  | (k, v) :: d' => if str_eqb k key then Some v else lookup key d'
  end.

(** [v.get(key, default)]: only a dict has [.get]. *)
Definition dict_get (v : value) (key : str) (default : value) : res value :=
  match v with
  | VDict d =>
      match lookup key d with
      | Some x => Ok x
      | None => Ok default
      end
  | _ => Err AttributeError
  end.

(** [v[key]] for a string key. *)
Definition subscript (v : value) (key : str) : res value :=
  match v with
  | VDict d =>
      match lookup key d with
      | Some x => Ok x
      | None => Err KeyError
      end
  | _ => Err TypeError
  end.

Fixpoint startswith (s prefix : str) : bool :=
  match prefix, s with
  | [], _ => true
  | p :: prefix', c :: s' => char_eqb c p && startswith s' prefix'
  | _ :: _, [] => false
  end.

(** [sub in s] for two strings. *)
Fixpoint contains (s sub : str) : bool :=
  startswith s sub ||
  match s with
  | [] => false
  | _ :: s' => contains s' sub
  end.

(** [key in v] *)
Definition py_in (key : str) (v : value) : res bool :=
  match v with
  | VDict d => Ok (match lookup key d with Some _ => true | None => false end)
  | VList l => Ok (existsb (fun x => eq_str x key) l)
  | VStr s => Ok (contains s key)
  | _ => Err TypeError
  end.

(** The items a [for] loop over [v] visits. *)
Definition py_iter (v : value) : res (list value) :=
  match v with
  | VList l => Ok l
  | VDict d => Ok (map (fun kv => VStr (fst kv)) d)
  | VStr s => Ok (map (fun c => VStr [c]) s)
  | _ => Err TypeError
  end.

(** ** [str.splitlines] and [str.strip] *)

Definition in_codes (c : char) (codes : list N) : bool :=
  existsb (N.eqb c) codes.

(** The line boundaries of [str.splitlines]. *)
Definition is_linebreak (c : char) : bool :=
  in_codes c [10; 11; 12; 13; 28; 29; 30; 133; 8232; 8233]%N.

(** The characters [str.strip] removes: Unicode white space. *)
Definition is_space (c : char) : bool :=
  in_codes c [9; 10; 11; 12; 13; 28; 29; 30; 31; 32; 133; 160; 5760;
              8232; 8233; 8239; 8287; 12288]%N
  || (N.leb 8192 c && N.leb c 8202).

Definition cr : char := 13%N.

(** [cur] is the line being read.  A carriage return directly followed
    by a line feed ends one line, not two; a last line without a
    terminator counts when it is not empty. *)
Fixpoint splitlines_from (cur s : str) : list str :=
  match s with
  | [] => match cur with [] => [] | _ => [cur] end
  | c :: s' =>
      if is_linebreak c then
        cur :: (if char_eqb c cr
                then match s' with
                     | d :: s'' =>
                         if char_eqb d nl then splitlines_from [] s''
                         else splitlines_from [] s'
                     | [] => splitlines_from [] s'
                     end
                else splitlines_from [] s')
      else splitlines_from (cur ++ [c]) s'
  end.

Definition splitlines (s : str) : list str := splitlines_from [] s.

(** No line boundary in [s]. *)
Definition no_linebreak (s : str) : bool :=
  forallb (fun c => negb (is_linebreak c)) s.

Fixpoint lstrip (s : str) : str :=
  match s with
  | c :: s' => if is_space c then lstrip s' else s
  | [] => []
  end.

Definition rstrip (s : str) : str := rev (lstrip (rev s)).

Definition strip (s : str) : str := rstrip (lstrip s).

(** ** Computations that talk to the network *)

(** [Get url k]: send [requests.get(url, headers=HEADERS)], check the
    status with [raise_for_status()] and read the body with [.json()];
    [k] continues with the parsed body, or with the exception that one
    of the three raised. *)
Inductive prog (A : Type) : Type :=
| Ret (a : A)
| Raise (e : exn)
| Get (url : value) (k : res value -> prog A).
Arguments Raise {A} e.
Arguments Get {A} url k.

Fixpoint bind {A B} (p : prog A) (f : A -> prog B) : prog B :=
  match p with
  | Ret a => f a
  | Raise e => Raise e
  | Get url k => Get url (fun o => bind (k o) f)
  end.

(** [try: p  except ...]: [handlers e] is the body of the first
    [except] clause that catches [e], when there is one.  What that
    body raises leaves the statement: the other clauses of the same
    [try] do not see it. *)
Fixpoint try_except {A} (p : prog A) (handlers : exn -> option (prog A))
  : prog A :=
  match p with
  | Ret a => Ret a
  | Raise e =>
      match handlers e with
      | Some h => h
      | None => Raise e
      end
  | Get url k => Get url (fun o => try_except (k o) handlers)
  end.

(** The clauses [except <class> as e: h e] of a [try], tried in the
    order they are written; the first component selects the class. *)
Fixpoint except {A} (clauses : list ((exn -> bool) * (exn -> prog A)))
  (e : exn) : option (prog A) :=
  match clauses with
  | [] => None
  | (catches, h) :: clauses' =>
      if catches e then Some (h e) else except clauses' e
  end.

Definition lift {A} (r : res A) : prog A :=
  match r with
  | Ok a => Ret a
  | Err e => Raise e
  end.

Definition fetch_json (url : value) : prog value := Get url lift.

Declare Scope prog_scope.
Delimit Scope prog_scope with prog.
Notation "'let*' x ':=' p 'in' q" := (bind p (fun x => q))
  (at level 10, x name, p at level 100, q at level 200) : prog_scope.
Open Scope prog_scope.

(** Running a computation against a network: [net url w] is what the
    request for [url] yields in state [w] of the outside world, and the
    state that follows. *)
Section Run.
Variable W : Type.
Variable net : value -> W -> res value * W.

Fixpoint run {A} (p : prog A) (w : W) : res A * W :=
  match p with
  | Ret a => (Ok a, w)
  | Raise e => (Err e, w)
  | Get url k => let (o, w') := net url w in run (k o) w'
  end.
End Run.

(** ** Library functions

    Executable versions of the library functions and of the standard
    output the pipeline takes as parameters, used to run it on concrete
    repositories. *)

Definition bytes := list Byte.byte.

Module Lib.

Local Open Scope N_scope.

(** The value of a character in the base64 alphabet. *)
Definition b64_value (c : N) : option N :=
  if N.leb 65 c && N.leb c 90 then Some (c - 65)
  else if N.leb 97 c && N.leb c 122 then Some (c - 71)
  else if N.leb 48 c && N.leb c 57 then Some (c + 4)
  else if N.eqb c 43 then Some 62
  else if N.eqb c 47 then Some 63
  else None.

Definition to_byte (n : N) : Byte.byte :=
  match Byte.of_N n with
  | Some b => b
  | None => Byte.x00
  end.

(** [binascii.a2b_base64] without [strict_mode]: characters outside
    the alphabet are skipped, a complete pad sequence ends the data,
    and an incomplete last quad is an error.  [quad_pos] counts the
    characters of the current quad, [leftchar] holds its bits not yet
    written, [pads] the pad characters just seen. *)
Fixpoint a2b_base64 (s : list N) (quad_pos leftchar pads : N)
  (out : bytes) : res bytes :=
  match s with
  | [] => if N.eqb quad_pos 0 then Ok out else Err BinasciiError
  | c :: s' =>
      if N.eqb c 61 then
        if N.leb 2 quad_pos then
          if N.leb 4 (quad_pos + (pads + 1)) then Ok out
          else a2b_base64 s' quad_pos leftchar (pads + 1) out
        else a2b_base64 s' quad_pos leftchar pads out
      else
        match b64_value c with
        | None => a2b_base64 s' quad_pos leftchar pads out
        | Some v =>
            match quad_pos with
            | 0 => a2b_base64 s' 1 v 0 out
            | 1 =>
                a2b_base64 s' 2 (N.land v 15) 0
                  (out ++ [to_byte (N.lor (N.shiftl leftchar 2) (N.shiftr v 4))])
            | 2 =>
                a2b_base64 s' 3 (N.land v 3) 0
                  (out ++ [to_byte (N.lor (N.shiftl leftchar 4) (N.shiftr v 2))])
            | _ =>
                a2b_base64 s' 0 0 0
                  (out ++ [to_byte (N.lor (N.shiftl leftchar 6) v)])
            end
        end
  end%N.

(** [base64.b64decode(v)]: a string must be ASCII. *)
Definition b64decode (v : value) : res bytes :=
  match v with
  | VStr s =>
      if forallb (fun c => N.ltb c 128) s then a2b_base64 s 0 0 0 []
      else Err ValueError
  | _ => Err TypeError
  end.

Definition cont_byte (b : N) : bool := (N.leb 128 b && N.leb b 191)%N.

(** Strict UTF-8: no overlong forms, no surrogates, nothing above
    U+10FFFF. *)
Fixpoint utf8 (bs : list N) : option str :=
  match bs with
  | [] => Some []
  | b0 :: r0 =>
      if N.ltb b0 128 then option_map (cons b0) (utf8 r0)
      else if N.leb 194 b0 && N.leb b0 223 then
        match r0 with
        | b1 :: r1 =>
            if cont_byte b1
            then option_map (cons ((b0 - 192) * 64 + (b1 - 128))) (utf8 r1)
            else None
        | _ => None
        end
      else if N.leb 224 b0 && N.leb b0 239 then
        match r0 with
        | b1 :: b2 :: r2 =>
            let lo := if N.eqb b0 224 then 160 else 128 in
            let hi := if N.eqb b0 237 then 159 else 191 in
            if N.leb lo b1 && N.leb b1 hi && cont_byte b2
            then option_map
                   (cons ((b0 - 224) * 4096 + (b1 - 128) * 64 + (b2 - 128)))
                   (utf8 r2)
            else None
        | _ => None
        end
      else if N.leb 240 b0 && N.leb b0 244 then
        match r0 with
        | b1 :: b2 :: b3 :: r3 =>
            let lo := if N.eqb b0 240 then 144 else 128 in
            let hi := if N.eqb b0 244 then 143 else 191 in
            if N.leb lo b1 && N.leb b1 hi && cont_byte b2 && cont_byte b3
            then option_map
                   (cons ((b0 - 240) * 262144 + (b1 - 128) * 4096
                          + (b2 - 128) * 64 + (b3 - 128)))
                   (utf8 r3)
            else None
        | _ => None
        end
      else None
  end%N.

Definition utf8_decode (bs : bytes) : option str :=
  utf8 (map Byte.to_N bs).

Definition hex_digit (n : N) : N :=
  nth (N.to_nat n) (u "0123456789abcdef") 48.

(** One character inside [repr] of a string delimited by [quote]: the
    delimiter and the backslash are escaped, tab, line feed and
    carriage return are written [\t], [\n] and [\r], the other
    control characters [\xNN]. *)
Definition repr_char (quote c : N) : str :=
  if N.eqb c quote || N.eqb c 92 then [92; c]
  else if N.eqb c 9 then [92; 116]
  else if N.eqb c 10 then [92; 110]
  else if N.eqb c 13 then [92; 114]
  else if N.ltb c 32 || N.eqb c 127
       then [92; 120; hex_digit (c / 16); hex_digit (c mod 16)]
  else [c].

(** [repr(s)]: between double quotes when [s] holds an apostrophe and
    no double quote, between apostrophes otherwise.  Exact for ASCII
    text; a character above U+007F is kept as it is, which is what
    Python does with the printable ones. *)
Definition repr_str (s : str) : str :=
  let quote :=
    if existsb (N.eqb 39) s && negb (existsb (N.eqb 34) s) then 34 else 39 in
  [quote] ++ concat (map (repr_char quote) s) ++ [quote].

(** [repr(v)]: a list or dict is shown with its items in order. *)
Fixpoint py_repr (v : value) : str :=
  match v with
  | VNone => u "None"
  | VBool true => u "True"
  | VBool false => u "False"
  | VInt z => u (NilZero.string_of_int (Z.to_int z))
  | VStr s => repr_str s
  | VList l => u "[" ++ join (u ", ") (map py_repr l) ++ u "]"
  | VDict d =>
      u "{" ++ join (u ", ")
                 (map (fun kv => repr_str (fst kv) ++ u ": " ++ py_repr (snd kv)) d)
        ++ u "}"
  end.

Definition py_str (v : value) : str :=
  match v with
  | VStr s => s
  | _ => py_repr v
  end.

(** A standard output that encodes as UTF-8: it takes every text but
    one that holds a surrogate code point. *)
Definition utf8_stdout (text : str) : bool :=
  forallb (fun c => negb (N.leb 55296 c && N.leb c 57343)) text.

(** A standard output that replaces what it cannot encode, and so
    takes every text. *)
Definition lossy_stdout (text : str) : bool := true.

(** A text for each class of exception. *)
Definition exn_str (e : exn) : str :=
  match e with
  | RequestException => u "404 Client Error: Not Found"
  | AttributeError => u "'list' object has no attribute 'get'"
  | KeyError => u "'type'"
  | TypeError => u "string indices must be integers"
  | ValueError => u "string argument should contain only ASCII characters"
  | UnicodeDecodeError => u "'utf-8' codec can't decode byte"
  | UnicodeEncodeError => u "'utf-8' codec can't encode character"
  | BinasciiError => u "Incorrect padding"
  end.

(** A network that answers from a table keyed by URL and fails every
    other request; its state counts the requests made. *)
Fixpoint table_lookup (t : list (str * res value)) (url : str) : res value :=
  match t with
  | [] => Err RequestException
  | (k, r) :: t' => if str_eqb k url then r else table_lookup t' url
  end.

Definition table_net (t : list (str * res value)) (url : value) (w : nat)
  : res value * nat :=
  match url with
  | VStr s => (table_lookup t s, S w)
  | _ => (Err RequestException, S w)
  end.

End Lib.

(** ** The pipeline *)

(** One entry of [all_files]: the dict [{'path': ..., 'url': ...}]. *)
Record file_info : Type := FileInfo { path : value; url : value }.

(** What the view returns: [jsonify({"error": msg}), status] or
    [Response(body, mimetype='text/markdown')]. *)
Inductive response : Type :=
| JsonError (status : nat) (msg : str)
| Markdown (body : str).

(** The local variables of [convert_repo] that the loop updates. *)
Record locals : Type := Locals {
  markdown_content : list str;
  processed_count : nat;
  skipped_count : nat
}.

(** How [convert_repo] ends: with an error response, or past the loop
    with its local variables. *)
Inductive outcome : Type :=
| Failed (status : nat) (msg : str)
| Converted (st : locals).

(** ** A sample repository

    The answers a network gives for the repository [o/r], used to run
    the pipeline on concrete inputs. *)

Module Demo.

(** The request body [{"url": url}]. *)
Definition request (url : string) : value := VDict [(u "url", VStr (u url))].

(** A blob answer with base64 content. *)
Definition blob (content : string) : res value :=
  Ok (VDict [(u "encoding", VStr (u "base64")); (u "content", VStr (u content))]).

(** An item of the tree listing. *)
Definition item (type path url : string) : value :=
  VDict [(u "type", VStr (u type)); (u "path", VStr (u path));
         (u "url", VStr (u url))].

Definition repo_url : str := u "https://api.github.com/repos/o/r".

Definition tree_url : str :=
  u "https://api.github.com/repos/o/r/git/trees/main?recursive=1".

(** The blobs: [B1] is "hello\n\nworld", [B2] the byte 0xFF, [B3]
    " \n\n", [B4] empty, [B5] "a\n\n  \nb\n", [B6] is not base64; any
    other URL fails. *)
Definition blobs : list (str * res value) :=
  [(u "B1", blob "aGVsbG8KCndvcmxk");
   (u "B2", blob "/w==");
   (u "B3", blob "IAoK");
   (u "B4", blob "");
   (u "B5", blob "YQoKICAKYgo=");
   (u "B6", Ok (VDict [(u "encoding", VStr (u "utf-8"));
                       (u "content", VStr (u "hi"))]))].

Definition listing : list value :=
  [item "blob" "a.txt" "B1"; item "tree" "d" "T"; item "blob" "b.bin" "B2"].

(** A repository with two files and a directory, its listing flagged as
    truncated. *)
Definition network : list (str * res value) :=
  [(repo_url, Ok (VDict [(u "default_branch", VStr (u "main"))]));
   (tree_url, Ok (VDict [(u "truncated", VBool true);
                         (u "tree", VList listing)]))]
  ++ blobs.

(** The metadata has no [default_branch]; the tree request fails. *)
Definition network_no_field : list (str * res value) :=
  [(repo_url, Ok (VDict [(u "name", VStr (u "r"))]))].

(** The metadata has an empty [default_branch]. *)
Definition network_empty_field : list (str * res value) :=
  [(repo_url, Ok (VDict [(u "default_branch", VStr [])]))].

(** A URL with a lone surrogate, which a JSON string can carry as
    an escape. *)
Definition odd_url : str := u "B" ++ [55296%N].

(** The only file of the repository has that URL, and the request for
    it fails. *)
Definition network_odd_url : list (str * res value) :=
  [(repo_url, Ok (VDict [(u "default_branch", VStr (u "main"))]));
   (tree_url,
    Ok (VDict [(u "tree",
                VList [VDict [(u "type", VStr (u "blob"));
                              (u "path", VStr (u "a.txt"));
                              (u "url", VStr odd_url)]])]))].

(** The same repository, where the request succeeds with bytes that
    are not UTF-8. *)
Definition network_odd_binary : list (str * res value) :=
  network_odd_url ++ [(odd_url, blob "/w==")].

(** The listing holds a directory only. *)
Definition network_no_blob : list (str * res value) :=
  [(repo_url, Ok (VDict [(u "default_branch", VStr (u "main"))]));
   (tree_url, Ok (VDict [(u "tree", VList [item "tree" "d" "T"])]))].

(** The document for [network]. *)
Definition document : str :=
  u "# Codebase for o/r" ++ [nl; nl; nl]
    ++ u "## `a.txt`" ++ [nl; nl]
    ++ u "```" ++ [nl] ++ u "hello" ++ [nl] ++ u "world" ++ [nl]
    ++ u "```" ++ [nl; nl]
    ++ u "---" ++ [nl; nl]
    ++ u "## `b.bin`" ++ [nl; nl]
    ++ u "*Content skipped (binary, non-UTF8, or error fetching).*" ++ [nl; nl]
    ++ u "---" ++ [nl].

(** A file entry, and the local variables before any file. *)
Definition file (path url : string) : file_info :=
  FileInfo (VStr (u path)) (VStr (u url)).

Definition start : locals :=
  {| markdown_content := []; processed_count := 0; skipped_count := 0 |}.

(** The text of blob [B5]. *)
Definition sample_text : str :=
  u "a" ++ [nl; nl] ++ u "  " ++ [nl] ++ u "b" ++ [nl].

End Demo.

Section Pipeline.

(** Library functions the code calls and whose exact behaviour no
    property below depends on. *)
Variable py_str : value -> str.              (* [str(v)] of a non-string *)
Variable b64decode : value -> res bytes.     (* [base64.b64decode]       *)
Variable utf8_decode : bytes -> option str.  (* [.decode('utf-8')]; [None]
                                                is [UnicodeDecodeError]  *)

(** The standard output: [stdout_ok text] says whether [sys.stdout] can
    encode [text]; and the text [str(e)] of an exception. *)
Variable stdout_ok : str -> bool.
Variable exn_str : exn -> str.

(** [{v}] inside an f-string. *)
Definition format_value (v : value) : str :=
  match v with
  | VStr s => s
  | _ => py_str v
  end.

(** [{n}] for a length or a counter. *)
Definition format_nat (n : nat) : str := format_value (VInt (Z.of_nat n)).

(** [print(text)]: the text is written, or the stream cannot encode it
    and [print] raises. *)
Definition printed (text : str) : res unit :=
  if stdout_ok text then Ok tt else Err UnicodeEncodeError.

Definition py_print (text : str) : prog unit := lift (printed text).

(** The texts the code prints, in the order of the source. *)
Definition log_repo_error (e : exn) : str :=
  u "Error fetching repo info: " ++ exn_str e.

Definition log_truncated (owner repo : str) : str :=
  u "Warning: File tree for " ++ owner ++ u "/" ++ repo
    ++ u " is truncated. Some files may be missing.".

Definition log_tree_error (e : exn) : str :=
  u "Error fetching file tree: " ++ exn_str e.

Definition log_tree_data_error (e : exn) : str :=
  u "Error processing file tree data: " ++ exn_str e.

Definition log_binary (url : value) : str :=
  u "Skipping binary file (or non-UTF-8 content) at " ++ format_value url.

Definition log_encoding (encoding url : value) : str :=
  u "Skipping file with unsupported encoding '" ++ format_value encoding
    ++ u "' at " ++ format_value url.

Definition log_fetch_error (url : value) (e : exn) : str :=
  u "Error fetching file content for " ++ format_value url ++ u ": "
    ++ exn_str e.

Definition log_content_error (url : value) (e : exn) : str :=
  u "Error processing file content for " ++ format_value url ++ u ": "
    ++ exn_str e.

Definition log_repository (owner repo : str) : str :=
  u "Processing repository: " ++ owner ++ u "/" ++ repo.

Definition log_branch (default_branch : value) : str :=
  u "Using default branch: " ++ format_value default_branch.

Definition log_found (n : nat) : str :=
  u "Found " ++ format_nat n ++ u " files to process.".

Definition log_file (file_path : value) : str :=
  u "  Processing: " ++ format_value file_path ++ u "...".

Definition log_complete (processed_count skipped_count : nat) : str :=
  u "Conversion complete. Processed: " ++ format_nat processed_count
    ++ u ", Skipped: " ++ format_nat skipped_count.

Definition get_default_branch (owner repo : str) : prog value :=
  let api_url := u "https://api.github.com/repos/" ++ owner ++ u "/" ++ repo in
  try_except
    (let* data := fetch_json (VStr api_url) in
     lift (dict_get data (u "default_branch") (VStr (u "main"))))
    (except
       [(is_RequestException,
         fun e =>
           let* _ := py_print (log_repo_error e) in
           Ret VNone)]).

(** The loop [for item in tree] of [get_repo_files]. *)
Fixpoint collect_blobs (tree : list value) (all_files : list file_info)
  : res (list file_info) :=
  match tree with
  | [] => Ok all_files
  | item :: tree' =>
      (let? ty := subscript item (u "type") in
       if eq_str ty (u "blob") then
         let? p := subscript item (u "path") in
         let? l := subscript item (u "url") in
         collect_blobs tree' (all_files ++ [FileInfo p l])
       else collect_blobs tree' all_files)%res
  end.

(** [None] stands for the returned [None]. *)
Definition get_repo_files (owner repo : str) (branch : value)
  : prog (option (list file_info)) :=
  let api_url :=
    u "https://api.github.com/repos/" ++ owner ++ u "/" ++ repo
      ++ u "/git/trees/" ++ format_value branch ++ u "?recursive=1" in
  let all_files := [] in
  try_except
    (let* data := fetch_json (VStr api_url) in
     let* truncated := lift (dict_get data (u "truncated") VNone) in
     let* _ :=
       if truthy truncated then py_print (log_truncated owner repo)
       else Ret tt in
     let* tree := lift (dict_get data (u "tree") (VList [])) in
     let* items := lift (py_iter tree) in
     let* all_files := lift (collect_blobs items all_files) in
     Ret (Some all_files))
    (except
       [(is_RequestException,
         fun e =>
           let* _ := py_print (log_tree_error e) in
           Ret None);
        (is_Exception,
         fun e =>
           let* _ := py_print (log_tree_data_error e) in
           Ret None)]).

(** [None] stands for the returned [None]. *)
Definition get_file_content (url : value) : prog (option str) :=
  try_except
    (let* blob_data := fetch_json url in
     let* encoding := lift (dict_get blob_data (u "encoding") VNone) in
     if eq_str encoding (u "base64") then
       let* content := lift (subscript blob_data (u "content")) in
       let* content_bytes := lift (b64decode content) in
       try_except
         (match utf8_decode content_bytes with
          | Some text => Ret (Some text)
          | None => Raise UnicodeDecodeError
          end)
         (except
            [(is_UnicodeDecodeError,
              fun _ =>
                let* _ := py_print (log_binary url) in
                Ret None)])
     else
       let* shown := lift (dict_get blob_data (u "encoding") VNone) in
       let* _ := py_print (log_encoding shown url) in
       Ret None)
    (except
       [(is_RequestException,
         fun e =>
           let* _ := py_print (log_fetch_error url e) in
           Ret None);
        (is_Exception,
         fun e =>
           let* _ := py_print (log_content_error url e) in
           Ret None)]).

(** The three lines that turn [content] into [processed_content]. *)
Definition process_content (content : str) : str :=
  let lines := splitlines content in
  let non_blank_lines := filter (fun line => truthy_str (strip line)) lines in
  join [nl] non_blank_lines.

Definition heading (file_path : value) : str :=
  u "## `" ++ format_value file_path ++ u "`" ++ [nl].

Definition skip_notice : str :=
  u "*Content skipped (binary, non-UTF8, or error fetching).*" ++ [nl].

(** One iteration of the loop over [files_to_process]. *)
Definition process_file (file_info : file_info) (st : locals) : prog locals :=
  let file_path := path file_info in
  let blob_url := url file_info in
  let* _ := py_print (log_file file_path) in
  let* content := get_file_content blob_url in
  match content with
  | Some content =>
      let processed_content := process_content content in
      Ret {| markdown_content :=
               markdown_content st ++
                 [heading file_path; u "```"; processed_content;
                  u "```" ++ [nl]; u "---" ++ [nl]];
             processed_count := processed_count st + 1;
             skipped_count := skipped_count st |}
  | None =>
      Ret {| markdown_content :=
               markdown_content st ++
                 [heading file_path; skip_notice; u "---" ++ [nl]];
             processed_count := processed_count st;
             skipped_count := skipped_count st + 1 |}
  end.

Fixpoint process_files (files_to_process : list file_info) (st : locals)
  : prog locals :=
  match files_to_process with
  | [] => Ret st
  | file_info :: rest =>
      let* st' := process_file file_info st in
      process_files rest st'
  end.

Definition title (owner repo : str) : str :=
  u "# Codebase for " ++ owner ++ u "/" ++ repo ++ [nl; nl].

(** [re.match] wants a string. *)
Definition parse_value (v : value) : res (option str * option str) :=
  match v with
  | VStr s => Ok (parse_github_url s)
  | _ => Err TypeError
  end.

(** The error messages. *)
Definition msg_missing_url : str := u "Missing 'url' in request body".

Definition msg_invalid_url : str := u "Invalid GitHub repository URL format.".

Definition msg_no_branch (owner repo : str) : str :=
  u "Could not determine default branch for " ++ owner ++ u "/" ++ repo
    ++ u ". Repo might be private, non-existent, or API error occurred.".

Definition msg_no_file_list (owner repo : str) : str :=
  u "Could not fetch file list for " ++ owner ++ u "/" ++ repo
    ++ u ". Check permissions or API rate limits.".

Definition msg_empty (owner repo : str) : str :=
  u "Repository " ++ owner ++ u "/" ++ repo
    ++ u " appears to be empty or no files found.".

(** [convert_repo] once [owner] and [repo] are known, up to the end
    of the loop. *)
Definition convert_known (owner repo : str) : prog outcome :=
  let* _ := py_print (log_repository owner repo) in
  let* default_branch := get_default_branch owner repo in
  if negb (truthy default_branch) then
    Ret (Failed 404 (msg_no_branch owner repo))
  else
  let* _ := py_print (log_branch default_branch) in
  let* files_to_process := get_repo_files owner repo default_branch in
  match files_to_process with
  | None => Ret (Failed 500 (msg_no_file_list owner repo))
  | Some [] => Ret (Failed 404 (msg_empty owner repo))
  | Some files_to_process =>
      let* _ := py_print (log_found (length files_to_process)) in
      let st := {| markdown_content := [] ++ [title owner repo];
                   processed_count := 0;
                   skipped_count := 0 |} in
      let* st := process_files files_to_process st in
      Ret (Converted st)
  end.

(** The body of [convert_repo] up to the end of the loop; [data] is
    what [request.get_json()] returned. *)
Definition convert (data : value) : prog outcome :=
  if negb (truthy data) then Ret (Failed 400 msg_missing_url)
  else
  let* present := lift (py_in (u "url") data) in
  if negb present then Ret (Failed 400 msg_missing_url)
  else
  let* repo_url := lift (subscript data (u "url")) in
  let* parsed := lift (parse_value repo_url) in
  match parsed with
  | (Some owner, Some repo) =>
      if negb (truthy_str owner) || negb (truthy_str repo) then
        Ret (Failed 400 msg_invalid_url)
      else convert_known owner repo
  | _ => Ret (Failed 400 msg_invalid_url)
  end.

Definition final_markdown (st : locals) : str :=
  join [nl] (markdown_content st).

(** The view: the body above, then what follows the loop. *)
Definition convert_repo (data : value) : prog response :=
  let* o := convert data in
  match o with
  | Failed status msg => Ret (JsonError status msg)
  | Converted st =>
      let final_markdown := final_markdown st in
      let* _ := py_print (log_complete (processed_count st)
                            (skipped_count st)) in
      Ret (Markdown final_markdown)
  end.

(** *** The pipeline as a function of the network's answers

    The definitions below say, without [prog], what each function
    computes from the answer it receives; the properties relate them
    to the code above. *)

Variable W : Type.
Variable net : value -> W -> res value * W.

Definition repo_api_url (owner repo : str) : value :=
  VStr (u "https://api.github.com/repos/" ++ owner ++ u "/" ++ repo).

Definition tree_api_url (owner repo : str) (branch : value) : value :=
  VStr (u "https://api.github.com/repos/" ++ owner ++ u "/" ++ repo
          ++ u "/git/trees/" ++ format_value branch ++ u "?recursive=1").

(** What [get_default_branch] makes of the answer to its request. *)
Definition branch_of (answer : res value) : res value :=
  match answer with
  | Ok data => dict_get data (u "default_branch") (VStr (u "main"))
  | Err e =>
      if is_RequestException e
      then (let? _ := printed (log_repo_error e) in Ok VNone)%res
      else Err e
  end.

(** The file list of an answer, when one can be read from it. *)
Definition files_of (answer : res value) : option (list file_info) :=
  match answer with
  | Ok data =>
      match
        (let? truncated := dict_get data (u "truncated") VNone in
         let? tree := dict_get data (u "tree") (VList []) in
         let? items := py_iter tree in
         collect_blobs items [])%res
      with
      | Ok all_files => Some all_files
      | Err _ => None
      end
  | Err _ => None
  end.

(** The text the handler of [get_repo_files] prints for [e]. *)
Definition log_listing_failed (e : exn) : str :=
  if is_RequestException e then log_tree_error e else log_tree_data_error e.

(** What [get_repo_files] makes of the answer to its request. *)
Definition listing_of (owner repo : str) (answer : res value)
  : res (option (list file_info)) :=
  match
    (let? data := answer in
     let? truncated := dict_get data (u "truncated") VNone in
     let? _ := if truthy truncated then printed (log_truncated owner repo)
               else Ok tt in
     let? tree := dict_get data (u "tree") (VList []) in
     let? items := py_iter tree in
     collect_blobs items [])%res
  with
  | Ok all_files => Ok (Some all_files)
  | Err e => (let? _ := printed (log_listing_failed e) in Ok None)%res
  end.

(** The text of an answer to a blob request, when it has one. *)
Definition text_of (answer : res value) : option str :=
  match answer with
  | Ok blob_data =>
      match dict_get blob_data (u "encoding") VNone with
      | Ok encoding =>
          if eq_str encoding (u "base64") then
            match subscript blob_data (u "content") with
            | Ok content =>
                match b64decode content with
                | Ok content_bytes => utf8_decode content_bytes
                | Err _ => None
                end
            | Err _ => None
            end
          else None
      | Err _ => None
      end
  | Err _ => None
  end.

(** The text the handler of [get_file_content] prints for [e]. *)
Definition log_content_failed (l : value) (e : exn) : str :=
  if is_RequestException e then log_fetch_error l e
  else log_content_error l e.

(** What [get_file_content] makes of the answer to its request. *)
Definition content_of (l : value) (answer : res value)
  : res (option str) :=
  match
    (let? blob_data := answer in
     let? encoding := dict_get blob_data (u "encoding") VNone in
     if eq_str encoding (u "base64") then
       let? content := subscript blob_data (u "content") in
       let? content_bytes := b64decode content in
       match utf8_decode content_bytes with
       | Some text => Ok (Some text)
       | None => let? _ := printed (log_binary l) in Ok None
       end
     else
       let? _ := printed (log_encoding encoding l) in Ok None)%res
  with
  | Ok content => Ok content
  | Err e => (let? _ := printed (log_content_failed l e) in Ok None)%res
  end.

(** The contents of the files, fetched one after the other. *)
Fixpoint fetch_all (files : list file_info) (w : W)
  : list (option str) * W :=
  match files with
  | [] => ([], w)
  | file_info :: rest =>
      let (answer, w1) := net (url file_info) w in
      let (contents, w2) := fetch_all rest w1 in
      (text_of answer :: contents, w2)
  end.

(** The strings one file adds to [markdown_content]. *)
Definition section_parts (file_path : value) (content : option str)
  : list str :=
  match content with
  | Some text =>
      [heading file_path; u "```"; process_content text;
       u "```" ++ [nl]; u "---" ++ [nl]]
  | None => [heading file_path; skip_notice; u "---" ++ [nl]]
  end.

(** The state after one file: its section appended, one counter
    incremented. *)
Definition add_section (st : locals) (file_path : value)
  (content : option str) : locals :=
  {| markdown_content := markdown_content st ++ section_parts file_path content;
     processed_count :=
       processed_count st + (match content with Some _ => 1 | None => 0 end);
     skipped_count :=
       skipped_count st + (match content with Some _ => 0 | None => 1 end) |}.

(** The files with the content fetched for each, in order. *)
Definition fetched (files : list file_info) (w : W)
  : list (file_info * option str) :=
  combine files (fst (fetch_all files w)).

Definition add_sections (st : locals)
  (sections : list (file_info * option str)) : locals :=
  fold_left (fun st s => add_section st (path (fst s)) (snd s)) sections st.

(** A section that holds text, not the skip notice. *)
Definition is_text (s : file_info * option str) : bool :=
  match snd s with Some _ => true | None => false end.

(** The local variables when the loop starts. *)
Definition initial (owner repo : str) : locals :=
  {| markdown_content := [title owner repo];
     processed_count := 0;
     skipped_count := 0 |}.

(** [convert_known], from the answers of the network and the outcome
    of the loop. *)
Definition pipeline (owner repo : str) (w : W) : res outcome * W :=
  match printed (log_repository owner repo) with
  | Err e => (Err e, w)
  | Ok _ =>
  let (answer1, w1) := net (repo_api_url owner repo) w in
  match branch_of answer1 with
  | Err e => (Err e, w1)
  | Ok branch =>
      if truthy branch then
        match printed (log_branch branch) with
        | Err e => (Err e, w1)
        | Ok _ =>
        let (answer2, w2) := net (tree_api_url owner repo branch) w1 in
        match listing_of owner repo answer2 with
        | Err e => (Err e, w2)
        | Ok None => (Ok (Failed 500 (msg_no_file_list owner repo)), w2)
        | Ok (Some []) => (Ok (Failed 404 (msg_empty owner repo)), w2)
        | Ok (Some files) =>
            match printed (log_found (length files)) with
            | Err e => (Err e, w2)
            | Ok _ =>
                match run net (process_files files (initial owner repo)) w2
                with
                | (Ok st, w3) => (Ok (Converted st), w3)
                | (Err e, w3) => (Err e, w3)
                end
            end
        end
        end
      else (Ok (Failed 404 (msg_no_branch owner repo)), w1)
  end
  end.

(** The blob entries of a tree listing whose items are well formed. *)
Definition is_blob (item : value) : bool :=
  match subscript item (u "type") with
  | Ok ty => eq_str ty (u "blob")
  | Err _ => false
  end.

Definition field (item : value) (key : str) : value :=
  match subscript item key with
  | Ok v => v
  | Err _ => VNone
  end.

Definition blob_entries (tree : list value) : list file_info :=
  map (fun item => FileInfo (field item (u "path")) (field item (u "url")))
      (filter is_blob tree).

(** The items of the tree listing in the answer [data], in the order
    the loop of [get_repo_files] visits them. *)
Definition tree_items (data : value) : res (list value) :=
  (let? tree := dict_get data (u "tree") (VList []) in py_iter tree)%res.

(** An item of the tree that has a [type], and a [path] and a [url]
    when the type is [blob]. *)
Definition well_formed_item (item : value) : bool :=
  match subscript item (u "type") with
  | Ok ty =>
      if eq_str ty (u "blob") then
        match subscript item (u "path"), subscript item (u "url") with
        | Ok _, Ok _ => true
        | _, _ => false
        end
      else true
  | Err _ => false
  end.

(** The URLs a computation requests, in the order it sends them. *)
Fixpoint requests {A} (p : prog A) (w : W) : list value :=
  match p with
  | Ret _ => []
  | Raise _ => []
  | Get url k => url :: (let (o, w') := net url w in requests (k o) w')
  end.

(** The requests of [convert_known], from the answers of the network. *)
Definition pipeline_requests (owner repo : str) (w : W) : list value :=
  match printed (log_repository owner repo) with
  | Err _ => []
  | Ok _ =>
  let (answer1, w1) := net (repo_api_url owner repo) w in
  repo_api_url owner repo ::
    match branch_of answer1 with
    | Err _ => []
    | Ok branch =>
        if truthy branch then
          match printed (log_branch branch) with
          | Err _ => []
          | Ok _ =>
          let (answer2, w2) := net (tree_api_url owner repo branch) w1 in
          tree_api_url owner repo branch ::
            match listing_of owner repo answer2 with
            | Ok (Some (file_info :: rest)) =>
                match printed (log_found (length (file_info :: rest))) with
                | Err _ => []
                | Ok _ =>
                    requests (process_files (file_info :: rest)
                                (initial owner repo)) w2
                end
            | _ => []
            end
          end
        else []
    end
  end.


(** *** The document, as the specification lays it out *)

(** A line whose trimmed form is empty. *)
Definition blank (line : str) : bool :=
  match strip line with
  | [] => true
  | _ => false
  end.

(** Split into lines, drop the blank ones, rejoin with newline. *)
Definition spec_filtered_body (content : str) : str :=
  join [nl] (filter (fun line => negb (blank line)) (splitlines content)).

(** A heading naming the path in backticks, a blank line, the fenced
    body or the skip notice, a blank line, the separator. *)
Definition spec_section (file_path : value) (content : option str) : str :=
  u "## `" ++ format_value file_path ++ u "`" ++ [nl] ++ [nl]
    ++ match content with
       | Some text =>
           u "```" ++ [nl] ++ spec_filtered_body text ++ [nl]
             ++ u "```" ++ [nl]
       | None => u "*Content skipped (binary, non-UTF8, or error fetching).*" ++ [nl]
       end
    ++ [nl] ++ u "---" ++ [nl].

(** The title line and a blank line, then the sections, each after one
    more blank line. *)
Definition spec_document (owner repo : str)
  (sections : list (file_info * option str)) : str :=
  u "# Codebase for " ++ owner ++ u "/" ++ repo ++ [nl] ++ [nl]
    ++ concat (map (fun s => [nl] ++ spec_section (path (fst s)) (snd s))
                 sections).

(** ** Properties *)

(** *** Running a computation *)

Lemma run_bind A B (p : prog A) (f : A -> prog B) (w : W) :
  run net (bind p f) w =
  match run net p w with
  | (Ok a, w') => run net (f a) w'
  | (Err e, w') => (Err e, w')
  end.
Proof.
  revert w; induction p as [a | e | l k IH]; intros w; simpl; trivial.
  destruct (net l w) as [o w']. apply IH.
Qed.

Lemma run_try_except A (p : prog A) (handlers : exn -> option (prog A))
  (w : W) :
  run net (try_except p handlers) w =
  match run net p w with
  | (Ok a, w') => (Ok a, w')
  | (Err e, w') =>
      match handlers e with
      | Some h => run net h w'
      | None => (Err e, w')
      end
  end.
Proof.
  revert w; induction p as [a | e | l k IH]; intros w; simpl; trivial.
  - destruct (handlers e); reflexivity.
  - destruct (net l w) as [o w']. apply IH.
Qed.

Lemma run_lift A (r : res A) (w : W) : run net (lift r) w = (r, w).
Proof. destruct r; reflexivity. Qed.

Lemma run_fetch_json (l : value) (w : W) :
  run net (fetch_json l) w = net l w.
Proof.
  unfold fetch_json; simpl. destruct (net l w) as [o w']. apply run_lift.
Qed.

Lemma run_print (text : str) (w : W) :
  run net (py_print text) w = (printed text, w).
Proof. apply run_lift. Qed.

(** A handler that prints and returns. *)
Lemma run_print_then A (text : str) (a : A) (w : W) :
  run net (let* _ := py_print text in Ret a) w
  = ((let? _ := printed text in Ok a)%res, w).
Proof. rewrite run_bind, run_print. now destruct (printed text). Qed.

Lemma printed_ok (text : str) :
  stdout_ok text = true -> printed text = Ok tt.
Proof. unfold printed. now intros ->. Qed.

Lemma printed_error (text : str) :
  stdout_ok text = false -> printed text = Err UnicodeEncodeError.
Proof. unfold printed. now intros ->. Qed.

(** *** Each function, from the answer to its request *)

Lemma dict_get_error (v default : value) (key : str) (e : exn) :
  dict_get v key default = Err e -> e = AttributeError.
Proof.
  destruct v; simpl; try (now intros [= <-]).
  destruct (lookup key d); discriminate.
Qed.

Lemma run_get_default_branch (owner repo : str) (w : W) :
  run net (get_default_branch owner repo) w =
  (branch_of (fst (net (repo_api_url owner repo) w)),
   snd (net (repo_api_url owner repo) w)).
Proof.
  unfold get_default_branch, repo_api_url.
  rewrite run_try_except, run_bind, run_fetch_json.
  destruct (net _ w) as [[data | e] w']; cbn [fst snd branch_of].
  - rewrite run_lift.
    destruct (dict_get data _ _) as [v | e] eqn:E; trivial.
    apply dict_get_error in E as ->. reflexivity.
  - cbn [except]. destruct (is_RequestException e); [| reflexivity].
    apply run_print_then.
Qed.

Lemma run_get_repo_files (owner repo : str) (branch : value) (w : W) :
  run net (get_repo_files owner repo branch) w =
  (listing_of owner repo (fst (net (tree_api_url owner repo branch) w)),
   snd (net (tree_api_url owner repo branch) w)).
Proof.
  unfold get_repo_files, tree_api_url, listing_of.
  set (h := except _).
  assert (Hh : forall e w0,
             match h e with
             | Some q => run net q w0
             | None => (Err e, w0)
             end
             = ((let? _ := printed (log_listing_failed e) in Ok None)%res, w0)).
  { intros e w0. subst h. cbn [except]. unfold log_listing_failed.
    destruct (is_RequestException e); [| cbn [is_Exception]];
      apply run_print_then. }
  rewrite run_try_except, run_bind, run_fetch_json.
  destruct (net _ w) as [[data | e] w']; cbn [fst snd res_bind];
    [| apply Hh].
  rewrite run_bind, run_lift.
  destruct (dict_get data (u "truncated") VNone) as [t | e];
    cbn [res_bind]; [| apply Hh].
  rewrite run_bind.
  assert (P : run net (if truthy t then py_print (log_truncated owner repo)
                       else Ret tt) w'
              = (if truthy t then printed (log_truncated owner repo)
                 else Ok tt, w')).
  { destruct (truthy t); [apply run_print | reflexivity]. }
  rewrite P. clear P.
  destruct (if truthy t then printed (log_truncated owner repo) else Ok tt)
    as [[] | e]; cbn [res_bind]; [| apply Hh].
  rewrite run_bind, run_lift.
  destruct (dict_get data (u "tree") (VList [])) as [tree | e];
    cbn [res_bind]; [| apply Hh].
  rewrite run_bind, run_lift.
  destruct (py_iter tree) as [items | e]; cbn [res_bind]; [| apply Hh].
  rewrite run_bind, run_lift.
  destruct (collect_blobs items []) as [fs | e]; [reflexivity | apply Hh].
Qed.

Lemma run_get_file_content (l : value) (w : W) :
  run net (get_file_content l) w =
  (content_of l (fst (net l w)), snd (net l w)).
Proof.
  unfold get_file_content, content_of.
  set (h := except [(is_RequestException, _); _]).
  assert (Hh : forall e w0,
             match h e with
             | Some q => run net q w0
             | None => (Err e, w0)
             end
             = ((let? _ := printed (log_content_failed l e) in Ok None)%res,
                w0)).
  { intros e w0. subst h. cbn [except]. unfold log_content_failed.
    destruct (is_RequestException e); [| cbn [is_Exception]];
      apply run_print_then. }
  rewrite run_try_except, run_bind, run_fetch_json.
  destruct (net l w) as [[blob | e] w']; cbn [fst snd res_bind];
    [| apply Hh].
  rewrite run_bind, run_lift.
  destruct (dict_get blob (u "encoding") VNone) as [enc | e] eqn:E;
    cbn [res_bind]; [| apply Hh].
  destruct (eq_str enc (u "base64")).
  - rewrite run_bind, run_lift.
    destruct (subscript blob (u "content")) as [c | e];
      cbn [res_bind]; [| apply Hh].
    rewrite run_bind, run_lift.
    destruct (b64decode c) as [bs | e]; cbn [res_bind]; [| apply Hh].
    rewrite run_try_except.
    destruct (utf8_decode bs); cbn [run except is_UnicodeDecodeError];
      [reflexivity |].
    rewrite run_print_then.
    destruct (printed (log_binary l)) as [[] | e]; cbn [res_bind];
      [reflexivity | apply Hh].
  - rewrite run_bind, run_lift. cbn [res_bind].
    rewrite run_print_then.
    destruct (printed (log_encoding enc l)) as [[] | e]; cbn [res_bind];
      [reflexivity | apply Hh].
Qed.

(** A returned content is the text of the answer. *)
Lemma content_of_text (l : value) (answer : res value) (c : option str) :
  content_of l answer = Ok c -> c = text_of answer.
Proof.
  unfold content_of, text_of.
  destruct answer as [blob | e]; cbn [res_bind].
  - destruct (dict_get blob (u "encoding") VNone) as [enc | e];
      cbn [res_bind].
    + destruct (eq_str enc (u "base64")).
      * destruct (subscript blob (u "content")) as [ct | e]; cbn [res_bind].
        -- destruct (b64decode ct) as [bs | e]; cbn [res_bind].
           ++ destruct (utf8_decode bs); [now intros [= <-] |].
              destruct (printed (log_binary l)) as [[] | e]; cbn [res_bind];
                [now intros [= <-] |].
              destruct (printed _) as [[] |]; now intros [= <-].
           ++ destruct (printed _) as [[] |]; now intros [= <-].
        -- destruct (printed _) as [[] |]; now intros [= <-].
      * destruct (printed (log_encoding enc l)) as [[] | e]; cbn [res_bind];
          [now intros [= <-] |].
        destruct (printed _) as [[] |]; now intros [= <-].
    + destruct (printed _) as [[] |]; now intros [= <-].
  - destruct (printed _) as [[] |]; now intros [= <-].
Qed.

(** The way to a text prints nothing. *)
Lemma content_of_some (l : value) (answer : res value) (text : str) :
  content_of l answer = Ok (Some text) <-> text_of answer = Some text.
Proof.
  split.
  - intros H. now apply content_of_text in H.
  - unfold content_of, text_of.
    destruct answer as [blob | e]; cbn [res_bind]; [| discriminate].
    destruct (dict_get blob (u "encoding") VNone) as [enc | e];
      cbn [res_bind]; [| discriminate].
    destruct (eq_str enc (u "base64")); [| discriminate].
    destruct (subscript blob (u "content")) as [ct | e]; cbn [res_bind];
      [| discriminate].
    destruct (b64decode ct) as [bs | e]; cbn [res_bind]; [| discriminate].
    now intros ->.
Qed.

(** On a standard output that takes every text, nothing is raised. *)
Lemma content_of_printable (l : value) (answer : res value) :
  (forall text, stdout_ok text = true) ->
  content_of l answer = Ok (text_of answer).
Proof.
  intros P.
  assert (Q : forall text, printed text = Ok tt)
    by (intros; now apply printed_ok).
  unfold content_of, text_of.
  destruct answer as [blob | e]; cbn [res_bind]; rewrite ?Q; trivial.
  destruct (dict_get blob (u "encoding") VNone) as [enc | e];
    cbn [res_bind]; rewrite ?Q; trivial.
  destruct (eq_str enc (u "base64")); rewrite ?Q; trivial.
  destruct (subscript blob (u "content")) as [ct | e]; cbn [res_bind];
    rewrite ?Q; trivial.
  destruct (b64decode ct) as [bs | e]; cbn [res_bind]; rewrite ?Q; trivial.
  destruct (utf8_decode bs); rewrite ?Q; trivial.
Qed.

Lemma run_process_file (fi : file_info) (st : locals) (w : W) :
  run net (process_file fi st) w =
  match printed (log_file (path fi)) with
  | Err e => (Err e, w)
  | Ok _ =>
      (match content_of (url fi) (fst (net (url fi) w)) with
       | Ok content => Ok (add_section st (path fi) content)
       | Err e => Err e
       end,
       snd (net (url fi) w))
  end.
Proof.
  unfold process_file. rewrite run_bind, run_print.
  destruct (printed (log_file (path fi))) as [[] | e]; trivial.
  rewrite run_bind, run_get_file_content.
  destruct (content_of _ _) as [[text |] | e]; trivial;
    simpl; unfold add_section; simpl; now rewrite !Nat.add_0_r.
Qed.

(** *** The loop *)

Lemma fetch_all_length (files : list file_info) (w : W) :
  length (fst (fetch_all files w)) = length files.
Proof.
  revert w; induction files as [| fi rest IH]; intros w; simpl; trivial.
  destruct (net (url fi) w) as [o w1].
  specialize (IH w1). destruct (fetch_all rest w1) as [cs w2].
  simpl in *. now rewrite IH.
Qed.


Lemma fetched_files (files : list file_info) (w : W) :
  map fst (fetched files w) = files.
Proof.
  unfold fetched.
  assert (H := fetch_all_length files w).
  revert H; generalize (fst (fetch_all files w)) as cs.
  induction files as [| fi rest IH]; intros [| c cs] H; simpl in *;
    try discriminate; trivial.
  f_equal. apply IH. now injection H.
Qed.

(** A loop that comes to its end has fetched every file, and its state
    is the one the contents give. *)
Lemma run_process_files_ok (files : list file_info) (st st' : locals)
  (w w' : W) :
  run net (process_files files st) w = (Ok st', w') ->
  st' = add_sections st (fetched files w) /\ w' = snd (fetch_all files w).
Proof.
  revert st w; induction files as [| fi rest IH]; intros st w.
  - cbn. now intros [= <- <-].
  - cbn [process_files]. rewrite run_bind, run_process_file.
    destruct (printed (log_file (path fi))) as [[] | e]; [| discriminate].
    unfold fetched. cbn [fetch_all].
    destruct (net (url fi) w) as [o w1]. cbn [fst snd].
    destruct (content_of (url fi) o) as [c | e] eqn:C; [| discriminate].
    apply content_of_text in C as ->.
    intros H. apply IH in H as [-> ->]. unfold fetched.
    destruct (fetch_all rest w1) as [cs w2]. now split.
Qed.

(** On a standard output that takes every text the loop comes to its
    end. *)
Lemma run_process_files_printable (files : list file_info) (st : locals)
  (w : W) :
  (forall text, stdout_ok text = true) ->
  run net (process_files files st) w =
  (Ok (add_sections st (fetched files w)), snd (fetch_all files w)).
Proof.
  intros P. revert st w; induction files as [| fi rest IH]; intros st w.
  - reflexivity.
  - cbn [process_files]. rewrite run_bind, run_process_file.
    rewrite (printed_ok (P _)), content_of_printable, IH by exact P.
    unfold fetched. cbn [fetch_all].
    destruct (net (url fi) w) as [o w1]. cbn [fst snd].
    destruct (fetch_all rest w1) as [cs w2]. reflexivity.
Qed.

Lemma add_sections_markdown (sections : list (file_info * option str))
  (st : locals) :
  markdown_content (add_sections st sections) =
  markdown_content st
    ++ concat (map (fun s => section_parts (path (fst s)) (snd s)) sections).
Proof.
  revert st; induction sections as [| s rest IH]; intros st; simpl.
  - now rewrite app_nil_r.
  - unfold add_sections in *. simpl. rewrite IH. simpl.
    now rewrite app_assoc.
Qed.

Lemma add_sections_counts (sections : list (file_info * option str))
  (st : locals) :
  processed_count (add_sections st sections) =
    processed_count st + length (filter is_text sections)
  /\ skipped_count (add_sections st sections) =
    skipped_count st + length (filter (fun s => negb (is_text s)) sections).
Proof.
  revert st; induction sections as [| [fi c] rest IH]; intros st.
  - unfold add_sections; simpl; split; lia.
  - unfold add_sections in *. cbn [fold_left].
    destruct (IH (add_section st (path (fst (fi, c))) (snd (fi, c))))
      as [Hp Hs].
    rewrite Hp, Hs. clear. cbn [filter].
    set (f := filter is_text rest).
    set (g := filter (fun s => negb (is_text s)) rest).
    destruct c; cbn; split; lia.
Qed.



(** *** Joining the parts *)

Lemma join_cons (sep x : str) (l : list str) :
  join sep (x :: l) = x ++ concat (map (app sep) l).
Proof.
  revert x; induction l as [| y l IH]; intros x.
  - simpl. now rewrite app_nil_r.
  - change (join sep (x :: y :: l)) with (x ++ sep ++ join sep (y :: l)).
    rewrite IH. simpl. now rewrite <- app_assoc.
Qed.

Lemma process_content_spec (content : str) :
  process_content content = spec_filtered_body content.
Proof.
  unfold process_content, spec_filtered_body. f_equal.
  apply filter_ext. intros line. unfold blank, truthy_str.
  now destruct (strip line).
Qed.

Lemma section_joined (file_path : value) (content : option str) :
  concat (map (app [nl]) (section_parts file_path content)) =
  [nl] ++ spec_section file_path content.
Proof.
  unfold spec_section, section_parts, heading, skip_notice.
  destruct content as [text |]; cbn [map concat];
    rewrite ?process_content_spec, ?app_nil_r, <- ?app_assoc; reflexivity.
Qed.

Lemma sections_joined (sections : list (file_info * option str)) :
  concat (map (app [nl])
            (concat (map (fun s => section_parts (path (fst s)) (snd s))
                       sections))) =
  concat (map (fun s => [nl] ++ spec_section (path (fst s)) (snd s))
            sections).
Proof.
  induction sections as [| s rest IH]; trivial.
  cbn [map concat]. rewrite map_app, concat_app.
  f_equal; [apply section_joined | exact IH].
Qed.

Lemma final_markdown_spec (owner repo : str)
  (sections : list (file_info * option str)) :
  final_markdown (add_sections (initial owner repo) sections) =
  spec_document owner repo sections.
Proof.
  unfold final_markdown. rewrite add_sections_markdown.
  cbn [initial markdown_content app]. rewrite join_cons, sections_joined.
  unfold spec_document, title. rewrite <- !app_assoc. reflexivity.
Qed.

(** *** The view *)

Lemma run_convert_known (owner repo : str) (w : W) :
  run net (convert_known owner repo) w = pipeline owner repo w.
Proof.
  unfold convert_known, pipeline.
  rewrite run_bind, run_print.
  destruct (printed (log_repository owner repo)) as [[] | e]; trivial.
  rewrite run_bind, run_get_default_branch.
  destruct (net (repo_api_url owner repo) w) as [a1 w1]; cbn [fst snd].
  destruct (branch_of a1) as [branch | e]; trivial.
  destruct (truthy branch); cbn [negb]; trivial.
  rewrite run_bind, run_print.
  destruct (printed (log_branch branch)) as [[] | e]; trivial.
  rewrite run_bind, run_get_repo_files.
  destruct (net (tree_api_url owner repo branch) w1) as [a2 w2]; cbn [fst snd].
  destruct (listing_of owner repo a2) as [[[| fi rest] |] | e]; trivial.
  rewrite run_bind, run_print.
  destruct (printed (log_found (length (fi :: rest)))) as [[] | e]; trivial.
  rewrite run_bind. cbn [app]. fold (initial owner repo).
  destruct (run net (process_files (fi :: rest) (initial owner repo)) w2)
    as [[st | e] w3]; reflexivity.
Qed.

(** A conversion that ends with a document went through every stage. *)
Lemma convert_converted (data : value) (w w' : W) (st : locals) :
  run net (convert data) w = (Ok (Converted st), w') ->
  exists s owner repo,
    subscript data (u "url") = Ok (VStr s)
    /\ parse_github_url s = (Some owner, Some repo)
    /\ truthy_str owner = true /\ truthy_str repo = true
    /\ convert data = convert_known owner repo
    /\ pipeline owner repo w = (Ok (Converted st), w').
Proof.
  unfold convert.
  destruct (truthy data); cbn [negb]; [| discriminate].
  destruct (py_in (u "url") data) as [[|] | e]; cbn [lift bind negb];
    try discriminate.
  destruct (subscript data (u "url")) as [repo_url | e]; cbn [lift bind];
    [| discriminate].
  destruct repo_url as [| | | s | |]; cbn [parse_value lift bind];
    try discriminate.
  destruct (parse_github_url s) as [[owner |] [repo |]] eqn:P;
    try discriminate.
  destruct (truthy_str owner) eqn:To; cbn [negb orb]; [| discriminate].
  destruct (truthy_str repo) eqn:Tr; cbn [negb]; [| discriminate].
  rewrite run_convert_known. intros H.
  exists s, owner, repo. repeat split; trivial.
Qed.

(** The way in, for a request body [{"url": s, ...}]. *)
Lemma convert_dict (d : list (str * value)) (s : str) :
  lookup (u "url") d = Some (VStr s) ->
  convert (VDict d) =
  match parse_github_url s with
  | (Some owner, Some repo) =>
      if negb (truthy_str owner) || negb (truthy_str repo)
      then Ret (Failed 400 msg_invalid_url)
      else convert_known owner repo
  | _ => Ret (Failed 400 msg_invalid_url)
  end.
Proof.
  intros H. unfold convert.
  assert (T : truthy (VDict d) = true) by (destruct d; [discriminate | reflexivity]).
  rewrite T. cbn [negb py_in subscript]. rewrite H. reflexivity.
Qed.

(** *** The URL patterns *)

Lemma greedy_run A (cs : cset) (pre acc rest : str)
  (k : str -> str -> option A) (x : A) :
  forallb (mem cs) pre = true ->
  stops cs rest = true ->
  k (acc ++ pre) rest = Some x ->
  greedy cs acc (pre ++ rest) k = Some x.
Proof.
  revert acc; induction pre as [| c pre IH]; intros acc Hpre Hstop Hk.
  - rewrite app_nil_r in Hk. destruct rest as [| c rest]; simpl; trivial.
    simpl in Hstop. destruct (mem cs c); [discriminate | trivial].
  - simpl in Hpre. apply andb_prop in Hpre as [Hc Hpre].
    simpl. rewrite Hc. rewrite (IH (acc ++ [c])); trivial.
    now rewrite <- app_assoc.
Qed.

Lemma greedy_const A (cs : cset) (acc s : str)
  (k : str -> str -> option A) (x : A) :
  (forall t s', k t s' = Some x) ->
  greedy cs acc s k = Some x.
Proof.
  intros Hk. revert acc; induction s as [| c s IH]; intros acc; simpl; trivial.
  destruct (mem cs c); trivial. now rewrite IH.
Qed.

Lemma exec_plus_run A (cs : cset) (pre rest : str) (m : captures)
  (k : cont A) (x : A) :
  pre <> [] ->
  forallb (mem cs) pre = true ->
  stops cs rest = true ->
  k pre rest m = Some x ->
  exec (Plus cs) (pre ++ rest) m k = Some x.
Proof.
  intros Hne Hpre Hstop Hk. destruct pre as [| c pre]; [congruence |].
  simpl in Hpre. apply andb_prop in Hpre as [Hc Hpre].
  simpl. rewrite Hc. now apply greedy_run.
Qed.

Lemma exec_seq A (r1 r2 : regex) (s : str) (m : captures) (k : cont A) :
  exec (Seq r1 r2) s m k =
  exec r1 s m (fun t1 s1 m1 =>
  exec r2 s1 m1 (fun t2 s2 m2 => k (t1 ++ t2) s2 m2)).
Proof. reflexivity. Qed.

Lemma exec_group A (n : nat) (r : regex) (s : str) (m : captures)
  (k : cont A) :
  exec (Group n r) s m k = exec r s m (fun t s' m' => k t s' ((n, t) :: m')).
Proof. reflexivity. Qed.

Lemma exec_chr A (cs : cset) (c : char) (s : str) (m : captures)
  (k : cont A) :
  exec (Chr cs) (c :: s) m k = if mem cs c then k [c] s m else None.
Proof. reflexivity. Qed.

(** [/?.*] at the end of a pattern always matches. *)
Lemma exec_opt_star A (c : char) (s : str) (m : captures) (k : cont A)
  (x : A) :
  (forall t s', k t s' m = Some x) ->
  exec (Opt (Lit c) ;; Star Dot)%re s m k = Some x.
Proof.
  intros Hk. rewrite exec_seq.
  assert (G : forall t1 acc s1,
             greedy Dot acc s1 (fun t s' => k (t1 ++ t) s' m) = Some x)
    by (intros; now apply greedy_const).
  destruct s as [| d s]; cbn [exec]; [apply G |].
  destruct (mem (Lit c) d); rewrite ?G; reflexivity.
Qed.

(** The pattern after [https?://github\.com/]. *)
Lemma exec_owner_repo (owner repo tail : str) :
  owner <> [] -> repo <> [] ->
  no_slash owner = true -> no_slash repo = true ->
  stops (Except slash) tail = true ->
  exec (Group 1 (Plus (Except slash)) ;; Chr (Lit slash) ;;
        Group 2 (Plus (Except slash)) ;; Opt (Lit slash) ;; Star Dot)%re
    (owner ++ [slash] ++ repo ++ tail) []
    (fun _ _ m => Some m) = Some [(2, repo); (1, owner)].
Proof.
  intros Ho Hr So Sr St.
  rewrite exec_seq, exec_group. apply exec_plus_run; trivial.
  cbv beta. cbn [app]. rewrite exec_seq, exec_chr. cbn [mem].
  unfold char_eqb at 1. rewrite N.eqb_refl.
  rewrite exec_seq, exec_group. apply exec_plus_run; trivial.
  cbv beta. now apply exec_opt_star.
Qed.

Lemma orelse_some A (a b : option A) (x : A) :
  orelse a b = Some x -> a = Some x \/ b = Some x.
Proof. destruct a; simpl; auto. Qed.

Lemma greedy_some A (cs : cset) (s acc : str) (k : str -> str -> option A)
  (x : A) :
  greedy cs acc s k = Some x -> exists t s', k t s' = Some x.
Proof.
  revert acc; induction s as [| c s IH]; intros acc; simpl.
  - eauto.
  - destruct (mem cs c); [| eauto].
    intros H. apply orelse_some in H as [H | H]; eauto.
Qed.

(** A match closes every group of its pattern. *)
Lemma exec_groups A (r : regex) (s : str) (m : captures) (k : cont A) (x : A) :
  exec r s m k = Some x ->
  exists t s' m',
    k t s' m' = Some x /\ map fst m' = group_ids r ++ map fst m.
Proof.
  revert s m k; induction r as [cs | cs | cs | cs | n r IH | r1 IH1 r2 IH2 |];
    intros s m k; cbn [exec group_ids app].
  - destruct s as [| c s]; [discriminate |].
    destruct (mem cs c); [eauto | discriminate].
  - destruct s as [| c s]; [eauto |].
    destruct (mem cs c); [| eauto].
    intros H. apply orelse_some in H as [H | H]; eauto.
  - intros H. apply greedy_some in H as (t & s' & H). eauto.
  - destruct s as [| c s]; [discriminate |].
    destruct (mem cs c); [| discriminate].
    intros H. apply greedy_some in H as (t & s' & H). eauto.
  - intros H. apply IH in H as (t & s' & m' & H & E).
    exists t, s', ((n, t) :: m'). split; trivial. simpl. now rewrite E.
  - intros H. apply IH1 in H as (t1 & s1 & m1 & H & E1).
    apply IH2 in H as (t2 & s2 & m2 & H & E2).
    exists (t1 ++ t2), s2, m2. split; trivial.
    now rewrite E2, E1, app_assoc.
  - eauto.
Qed.

(** [match.groups()] has no [None] for either pattern, so the model of
    [parse_github_url] never reaches [repo.endswith] without a string. *)
Lemma patterns_bind_groups (pattern : regex) (url : str) (m : captures) :
  In pattern patterns ->
  re_match pattern url = Some m ->
  exists owner repo, groups m = (Some owner, Some repo).
Proof.
  intros Hin H. apply exec_groups in H as (_ & _ & m' & [= ->] & E).
  assert (G : map fst m = [2; 1]).
  { destruct Hin as [<- | [<- | []]]; exact E. }
  destruct m as [| [i2 repo] [| [i1 owner] [| ? ?]]]; try discriminate.
  injection G as -> ->. exists owner, repo. reflexivity.
Qed.

Lemma re_match_http (rest : str) :
  re_match pattern_https (u "http://github.com/" ++ rest) =
  exec (Group 1 (Plus (Except slash)) ;; Chr (Lit slash) ;;
        Group 2 (Plus (Except slash)) ;; Opt (Lit slash) ;; Star Dot)%re
    rest [] (fun _ _ m => Some m).
Proof. reflexivity. Qed.

Lemma re_match_https (rest : str) :
  re_match pattern_https (u "https://github.com/" ++ rest) =
  exec (Group 1 (Plus (Except slash)) ;; Chr (Lit slash) ;;
        Group 2 (Plus (Except slash)) ;; Opt (Lit slash) ;; Star Dot)%re
    rest [] (fun _ _ m => Some m).
Proof.
  unfold re_match, pattern_https. cbn.
  match goal with |- orelse ?a None = _ => now destruct a end.
Qed.

Lemma parse_http_like_https (rest : str) :
  parse_github_url (u "http://github.com/" ++ rest) =
  parse_github_url (u "https://github.com/" ++ rest).
Proof.
  unfold parse_github_url, patterns, parse_with.
  rewrite re_match_http, re_match_https.
  destruct (exec _ rest [] _); reflexivity.
Qed.

Lemma parse_https_shape (owner repo tail : str) :
  owner <> [] -> repo <> [] ->
  no_slash owner = true -> no_slash repo = true ->
  stops (Except slash) tail = true ->
  parse_github_url (u "https://github.com/" ++ owner ++ [slash] ++ repo ++ tail)
  = (Some owner, Some (strip_git repo)).
Proof.
  intros. unfold parse_github_url, patterns, parse_with.
  rewrite re_match_https, exec_owner_repo; trivial.
Qed.

(** *** Lines and blanks *)

Lemma lstrip_nil (s : str) : lstrip s = [] <-> forallb is_space s = true.
Proof.
  induction s as [| c s IH]; simpl.
  - tauto.
  - destruct (is_space c); simpl; [exact IH |].
    split; discriminate.
Qed.

Lemma lstrip_spaces (s : str) :
  forallb is_space (lstrip s) = true -> lstrip s = [].
Proof.
  induction s as [| c s IH]; simpl; trivial.
  destruct (is_space c) eqn:E; trivial.
  simpl. rewrite E. discriminate.
Qed.

Lemma forallb_rev A (f : A -> bool) (l : list A) :
  forallb f (rev l) = forallb f l.
Proof.
  induction l as [| x l IH]; simpl; trivial.
  rewrite forallb_app, IH. simpl. rewrite andb_true_r. apply andb_comm.
Qed.

(** A line is blank exactly when all its characters are white space. *)
Lemma blank_spaces (line : str) : blank line = forallb is_space line.
Proof.
  unfold blank, strip, rstrip.
  destruct (forallb is_space line) eqn:E.
  - apply lstrip_nil in E. rewrite E. reflexivity.
  - destruct (rev (lstrip (rev (lstrip line)))) as [| c r] eqn:R; trivial.
    apply (f_equal (@rev char)) in R. rewrite rev_involutive in R. simpl in R.
    apply lstrip_nil in R. rewrite forallb_rev in R.
    apply lstrip_spaces, lstrip_nil in R. congruence.
Qed.

Lemma blank_nil : blank [] = true.
Proof. reflexivity. Qed.

Lemma splitlines_from_run (line cur rest : str) :
  no_linebreak line = true ->
  splitlines_from cur (line ++ rest) = splitlines_from (cur ++ line) rest.
Proof.
  revert cur; induction line as [| c line IH]; intros cur H; simpl.
  - now rewrite app_nil_r.
  - simpl in H. apply andb_prop in H as [Hc H].
    apply negb_true_iff in Hc. rewrite Hc, IH; trivial.
    now rewrite <- app_assoc.
Qed.

Lemma splitlines_join (lines : list str) :
  Forall (fun line => line <> [] /\ no_linebreak line = true) lines ->
  splitlines (join [nl] lines) = lines.
Proof.
  unfold splitlines. induction 1 as [| line rest [Hne Hnb] Hrest IH]; trivial.
  destruct rest as [| line' rest].
  - cbn [join].
    assert (E := splitlines_from_run line [] [] Hnb).
    rewrite app_nil_r in E. rewrite E. cbn [app splitlines_from].
    destruct line; [now elim Hne | reflexivity].
  - change (join [nl] (line :: line' :: rest))
      with (line ++ nl :: join [nl] (line' :: rest)).
    rewrite splitlines_from_run; trivial. cbn [app splitlines_from].
    change (is_linebreak nl) with true. change (char_eqb nl cr) with false.
    cbv iota. now rewrite IH.
Qed.

Lemma splitlines_from_no_linebreak (n : nat) (s cur : str) :
  length s <= n ->
  no_linebreak cur = true ->
  Forall (fun line => no_linebreak line = true) (splitlines_from cur s).
Proof.
  revert s cur. induction n as [| n IH]; intros s cur Hlen Hcur;
    destruct s as [| c s]; simpl in *; try lia.
  - destruct cur; constructor; trivial.
  - destruct cur; constructor; trivial.
  - destruct (is_linebreak c) eqn:E.
    + constructor; trivial.
      destruct (char_eqb c cr); [destruct s as [| d s] |];
        try destruct (char_eqb d nl); apply IH; simpl in *; trivial; lia.
    + apply IH; [lia |].
      unfold no_linebreak in *. rewrite forallb_app, Hcur. simpl. now rewrite E.
Qed.

Lemma splitlines_no_linebreak (s : str) :
  Forall (fun line => no_linebreak line = true) (splitlines s).
Proof. now apply splitlines_from_no_linebreak with (n := length s). Qed.

(** The lines of the filtered body are the lines of the content that
    are not blank, unchanged and in order. *)
Lemma splitlines_filtered (content : str) :
  splitlines (spec_filtered_body content) =
  filter (fun line => negb (blank line)) (splitlines content).
Proof.
  unfold spec_filtered_body. apply splitlines_join.
  apply Forall_forall. intros line Hin. apply filter_In in Hin as [Hin Hb].
  split.
  - intros ->. discriminate.
  - assert (H := splitlines_no_linebreak content).
    rewrite Forall_forall in H. now apply H.
Qed.

Lemma all_blank_body (content : str) :
  Forall (fun line => blank line = true) (splitlines content) ->
  process_content content = [].
Proof.
  intros H. unfold process_content.
  replace (filter _ (splitlines content)) with (@nil str); trivial.
  symmetry. induction H as [| line rest Hb _ IH]; trivial.
  simpl. rewrite IH. unfold blank in Hb. now destruct (strip line).
Qed.

(** *** [parse_github_url] *)

Lemma str_eqb_refl (s : str) : str_eqb s s = true.
Proof.
  induction s as [| c s IH]; simpl; trivial.
  unfold char_eqb. now rewrite N.eqb_refl.
Qed.

Lemma strip_git_suffix (name : str) : strip_git (name ++ u ".git") = name.
Proof.
  unfold strip_git, endswith, drop_last4.
  rewrite length_app. change (length (u ".git")) with 4.
  replace (length name + 4 - 4) with (length name) by lia.
  rewrite skipn_app, skipn_all, Nat.sub_diag. cbn [app skipn].
  rewrite str_eqb_refl, andb_true_r.
  replace (4 <=? length name + 4) with true
    by (symmetry; apply Nat.leb_le; lia).
  rewrite firstn_app, firstn_all, Nat.sub_diag. cbn [firstn].
  apply app_nil_r.
Qed.

(** C7: [parse_github_url] maps [https://github.com/o/r],
    [https://github.com/o/r.git], [https://github.com/o/r/tree/main]
    and [git@github.com:o/r.git] to owner [o] and repository [r]; a
    repository name that ends in [.git] loses that suffix. *)
Theorem C7_parse_supported_urls :
  parse_github_url (u "https://github.com/o/r") = (Some (u "o"), Some (u "r"))
  /\ parse_github_url (u "https://github.com/o/r.git")
     = (Some (u "o"), Some (u "r"))
  /\ parse_github_url (u "https://github.com/o/r/tree/main")
     = (Some (u "o"), Some (u "r"))
  /\ parse_github_url (u "git@github.com:o/r.git")
     = (Some (u "o"), Some (u "r"))
  /\ (forall name, strip_git (name ++ u ".git") = name).
Proof.
  repeat split; try (vm_compute; reflexivity).
  apply strip_git_suffix.
Qed.

(** C8: a URL that matches neither the HTTPS nor the SSH pattern is
    not parsed, and [convert_repo] answers 400 "Invalid GitHub
    repository URL format." without sending any request: the
    computation is a leaf. *)
Theorem C8_unmatched_url_is_bad_input (url : str) (d : list (str * value)) :
  re_match pattern_https url = None ->
  re_match pattern_ssh url = None ->
  lookup (u "url") d = Some (VStr url) ->
  parse_github_url url = (None, None)
  /\ convert_repo (VDict d) = Ret (JsonError 400 msg_invalid_url).
Proof.
  intros H1 H2 Hd.
  assert (P : parse_github_url url = (None, None)).
  { unfold parse_github_url, patterns, parse_with. now rewrite H1, H2. }
  split; trivial.
  unfold convert_repo. rewrite (convert_dict _ Hd), P. reflexivity.
Qed.

(** C9: [http://] is accepted like [https://].  For a non-empty owner
    and repository name without [/], followed by nothing or by [/...],
    the URL [http://github.com/owner/repo...] parses to the owner and
    the name (less a [.git] suffix), as the [https://] URL does. *)
Theorem C9_http_accepted (owner repo tail : str) :
  owner <> [] -> repo <> [] ->
  no_slash owner = true -> no_slash repo = true ->
  stops (Except slash) tail = true ->
  parse_github_url (u "http://github.com/" ++ owner ++ [slash] ++ repo ++ tail)
  = (Some owner, Some (strip_git repo))
  /\ parse_github_url (u "http://github.com/" ++ owner ++ [slash] ++ repo ++ tail)
     = parse_github_url
         (u "https://github.com/" ++ owner ++ [slash] ++ repo ++ tail).
Proof.
  intros. split.
  - rewrite parse_http_like_https. now apply parse_https_shape.
  - apply parse_http_like_https.
Qed.

(** *** The tree listing *)

Lemma blob_entries_cons (item : value) (tree : list value) :
  blob_entries (item :: tree) =
  if is_blob item
  then FileInfo (field item (u "path")) (field item (u "url"))
         :: blob_entries tree
  else blob_entries tree.
Proof. unfold blob_entries. simpl. now destruct (is_blob item). Qed.

Lemma collect_blobs_entries (tree : list value) (acc files : list file_info) :
  collect_blobs tree acc = Ok files -> files = acc ++ blob_entries tree.
Proof.
  revert acc; induction tree as [| item tree IH]; intros acc.
  - simpl. intros [= <-]. now rewrite app_nil_r.
  - rewrite blob_entries_cons. cbn [collect_blobs]. unfold is_blob, field.
    destruct (subscript item (u "type")) as [ty | e]; cbn [res_bind];
      [| discriminate].
    destruct (eq_str ty (u "blob")); [| apply IH].
    destruct (subscript item (u "path")) as [p | e]; cbn [res_bind];
      [| discriminate].
    destruct (subscript item (u "url")) as [l | e]; cbn [res_bind];
      [| discriminate].
    intros H. apply IH in H. rewrite H, <- app_assoc. reflexivity.
Qed.

Lemma collect_blobs_well_formed (tree : list value) (acc : list file_info) :
  forallb well_formed_item tree = true ->
  collect_blobs tree acc = Ok (acc ++ blob_entries tree).
Proof.
  revert acc; induction tree as [| item tree IH]; intros acc.
  - simpl. intros _. now rewrite app_nil_r.
  - cbn [forallb]. intros H. apply andb_prop in H as [Hi Ht].
    rewrite blob_entries_cons. cbn [collect_blobs].
    unfold is_blob, field, well_formed_item in *.
    destruct (subscript item (u "type")) as [ty | e]; cbn [res_bind];
      [| discriminate].
    destruct (eq_str ty (u "blob")); [| now apply IH].
    destruct (subscript item (u "path")) as [p | e]; cbn [res_bind];
      [| discriminate].
    destruct (subscript item (u "url")) as [l | e]; cbn [res_bind];
      [| discriminate].
    rewrite IH, <- app_assoc; trivial.
Qed.

(** A listing with well-formed items yields its blobs, in order,
    whatever [truncated] says. *)
Lemma files_of_listing (d : list (str * value)) (items : list value) :
  lookup (u "tree") d = Some (VList items) ->
  forallb well_formed_item items = true ->
  files_of (Ok (VDict d)) = Some (blob_entries items).
Proof.
  intros Ht Hw. unfold files_of, dict_get. rewrite Ht.
  destruct (lookup (u "truncated") d); cbn [res_bind py_iter];
    now rewrite collect_blobs_well_formed.
Qed.

(** The file list is the blobs of the listing, in the listing's order. *)
Lemma files_of_some (answer : res value) (files : list file_info) :
  files_of answer = Some files ->
  exists data items,
    answer = Ok data /\ tree_items data = Ok items
    /\ files = blob_entries items.
Proof.
  destruct answer as [data | e]; [| discriminate].
  unfold files_of.
  destruct (dict_get data (u "truncated") VNone); [| discriminate].
  cbn [res_bind].
  destruct (dict_get data (u "tree") (VList [])) as [tree | e] eqn:T;
    [| discriminate].
  cbn [res_bind].
  destruct (py_iter tree) as [items | e] eqn:I; [| discriminate].
  cbn [res_bind].
  destruct (collect_blobs items []) as [fs | e] eqn:C; [| discriminate].
  intros [= <-]. exists data, items.
  apply collect_blobs_entries in C.
  unfold tree_items. rewrite T. cbn [res_bind]. now repeat split.
Qed.

Lemma files_of_error (e : exn) : files_of (Err e) = None.
Proof. reflexivity. Qed.

(** A returned file list is the one the answer holds. *)
Lemma listing_of_some (owner repo : str) (answer : res value)
  (files : list file_info) :
  listing_of owner repo answer = Ok (Some files) ->
  files_of answer = Some files.
Proof.
  unfold listing_of, files_of.
  assert (D : forall e,
             (let? _ := printed (log_listing_failed e) in Ok None)%res
             <> Ok (Some files)).
  { intros e. destruct (printed _) as [[] |]; discriminate. }
  destruct answer as [data | e]; cbn [res_bind];
    [| intros H; now elim (D _ H)].
  destruct (dict_get data (u "truncated") VNone) as [t | e]; cbn [res_bind];
    [| intros H; now elim (D _ H)].
  destruct (if truthy t then printed (log_truncated owner repo) else Ok tt)
    as [[] | e]; cbn [res_bind]; [| intros H; now elim (D _ H)].
  destruct (dict_get data (u "tree") (VList [])) as [tree | e];
    cbn [res_bind]; [| intros H; now elim (D _ H)].
  destruct (py_iter tree) as [items | e]; cbn [res_bind];
    [| intros H; now elim (D _ H)].
  destruct (collect_blobs items []) as [fs | e];
    [| intros H; now elim (D _ H)].
  now intros [= <-].
Qed.

(** A listing with well-formed items yields its blobs once the warning
    about truncation can be printed. *)
Lemma listing_of_listing (owner repo : str) (d : list (str * value))
  (items : list value) :
  lookup (u "tree") d = Some (VList items) ->
  forallb well_formed_item items = true ->
  stdout_ok (log_truncated owner repo) = true ->
  listing_of owner repo (Ok (VDict d)) = Ok (Some (blob_entries items)).
Proof.
  intros Ht Hw P. unfold listing_of. cbn [res_bind]. unfold dict_get.
  rewrite Ht, (printed_ok P).
  destruct (lookup (u "truncated") d) as [t |]; cbn [res_bind py_iter truthy];
    [destruct (truthy t) |]; cbn [res_bind];
    now rewrite collect_blobs_well_formed.
Qed.

(** A request that fails gives [None] once the handler's message can be
    printed. *)
Lemma listing_of_error (owner repo : str) (e : exn) :
  stdout_ok (log_listing_failed e) = true ->
  listing_of owner repo (Err e) = Ok None.
Proof.
  intros P. unfold listing_of. cbn [res_bind]. now rewrite (printed_ok P).
Qed.

(** *** The claims about the pipeline *)

Lemma run_convert_repo (data : value) (w : W) :
  run net (convert_repo data) w =
  match run net (convert data) w with
  | (Ok (Failed status msg), w') => (Ok (JsonError status msg), w')
  | (Ok (Converted st), w') =>
      match printed (log_complete (processed_count st) (skipped_count st))
      with
      | Ok _ => (Ok (Markdown (final_markdown st)), w')
      | Err e => (Err e, w')
      end
  | (Err e, w') => (Err e, w')
  end.
Proof.
  unfold convert_repo. rewrite run_bind.
  destruct (run net (convert data) w) as [[[status msg | st] | e] w'];
    trivial.
  rewrite run_bind, run_print. now destruct (printed _) as [[] |].
Qed.

(** A request body [{"url": url}] whose URL parses runs the stages. *)
Lemma run_convert_parsed (d : list (str * value)) (url owner repo : str)
  (w : W) :
  lookup (u "url") d = Some (VStr url) ->
  parse_github_url url = (Some owner, Some repo) ->
  truthy_str owner = true -> truthy_str repo = true ->
  run net (convert (VDict d)) w = pipeline owner repo w.
Proof.
  intros Hd Hp Ho Hr. rewrite (convert_dict _ Hd), Hp, Ho, Hr.
  apply run_convert_known.
Qed.

(** [fetch_all] follows the calls of [get_file_content] that return. *)
Lemma fetch_all_cons (fi : file_info) (rest : list file_info) (w w1 : W)
  (content : option str) :
  run net (get_file_content (url fi)) w = (Ok content, w1) ->
  fetch_all (fi :: rest) w
  = (content :: fst (fetch_all rest w1), snd (fetch_all rest w1)).
Proof.
  rewrite run_get_file_content. cbn [fetch_all].
  destruct (net (url fi) w) as [o w0]. cbn [fst snd].
  intros [= C ->]. apply content_of_text in C as ->.
  now destruct (fetch_all rest w1).
Qed.

(** What a finished conversion went through. *)
Lemma converted_stages (data : value) (w w' : W) (st : locals) :
  run net (convert data) w = (Ok (Converted st), w') ->
  exists url owner repo branch files w1 w2,
    subscript data (u "url") = Ok (VStr url)
    /\ parse_github_url url = (Some owner, Some repo)
    /\ run net (get_default_branch owner repo) w = (Ok branch, w1)
    /\ run net (get_repo_files owner repo branch) w1 = (Ok (Some files), w2)
    /\ (exists listing items,
           net (tree_api_url owner repo branch) w1 = (Ok listing, w2)
           /\ tree_items listing = Ok items
           /\ files = blob_entries items)
    /\ st = add_sections (initial owner repo) (fetched files w2)
    /\ w' = snd (fetch_all files w2).
Proof.
  intros H. apply convert_converted in H
    as (url & owner & repo & Hu & Hp & _ & _ & _ & H).
  unfold pipeline in H.
  destruct (printed (log_repository owner repo)) as [[] | e];
    [| discriminate].
  destruct (net (repo_api_url owner repo) w) as [a1 w1] eqn:N1.
  destruct (branch_of a1) as [branch | e] eqn:B; [| discriminate].
  destruct (truthy branch); [| discriminate].
  destruct (printed (log_branch branch)) as [[] | e]; [| discriminate].
  destruct (net (tree_api_url owner repo branch) w1) as [a2 w2] eqn:N2.
  destruct (listing_of owner repo a2) as [[[| fi rest] |] | e] eqn:F;
    try discriminate.
  destruct (printed (log_found _)) as [[] | e]; [| discriminate].
  destruct (run net (process_files (fi :: rest) (initial owner repo)) w2)
    as [[st0 | e] w3] eqn:L; [| discriminate].
  injection H as <- <-.
  apply run_process_files_ok in L as [-> ->].
  exists url, owner, repo, branch, (fi :: rest), w1, w2.
  rewrite run_get_default_branch, run_get_repo_files, N1, N2. cbn [fst snd].
  rewrite B, F. repeat split; trivial.
  apply listing_of_some in F.
  destruct (files_of_some _ F) as (listing & items & -> & Hi & Hf).
  now exists listing, items.
Qed.

(** C1: the document of a successful conversion is the title line
    [# Codebase for owner/repo] followed by one section per entry of
    the file list, in the order [get_repo_files] returned them, which
    is the order of the blobs in the tree listing; a section is the
    heading with the path in backticks, then the fenced filtered body
    or the fixed skip notice, then [---]. *)
Theorem C1_document_layout (data : value) (w w' : W) (doc : str) :
  run net (convert_repo data) w = (Ok (Markdown doc), w') ->
  exists url owner repo branch files w1 w2,
    subscript data (u "url") = Ok (VStr url)
    /\ parse_github_url url = (Some owner, Some repo)
    /\ run net (get_default_branch owner repo) w = (Ok branch, w1)
    /\ run net (get_repo_files owner repo branch) w1 = (Ok (Some files), w2)
    /\ (exists listing items,
           net (tree_api_url owner repo branch) w1 = (Ok listing, w2)
           /\ tree_items listing = Ok items
           /\ files = blob_entries items)
    /\ map fst (fetched files w2) = files
    /\ doc = spec_document owner repo (fetched files w2).
Proof.
  rewrite run_convert_repo.
  destruct (run net (convert data) w) as [[[status msg | st] | e] w0] eqn:R;
    try discriminate.
  destruct (printed _) as [[] | e]; [| discriminate].
  intros [= <- <-].
  apply converted_stages in R
    as (url & owner & repo & branch & files & w1 & w2
        & Hu & Hp & Hb & Hf & Ht & -> & _).
  exists url, owner, repo, branch, files, w1, w2.
  repeat split; trivial.
  - apply fetched_files.
  - apply final_markdown_spec.
Qed.

Lemma run_convert_repo_parsed (d : list (str * value)) (url owner repo : str)
  (w : W) :
  lookup (u "url") d = Some (VStr url) ->
  parse_github_url url = (Some owner, Some repo) ->
  truthy_str owner = true -> truthy_str repo = true ->
  run net (convert_repo (VDict d)) w =
  match pipeline owner repo w with
  | (Ok (Failed status msg), w') => (Ok (JsonError status msg), w')
  | (Ok (Converted st), w') =>
      match printed (log_complete (processed_count st) (skipped_count st))
      with
      | Ok _ => (Ok (Markdown (final_markdown st)), w')
      | Err e => (Err e, w')
      end
  | (Err e, w') => (Err e, w')
  end.
Proof.
  intros Hd Hp Ho Hr.
  rewrite run_convert_repo.
  now rewrite run_convert_parsed with (url := url) (owner := owner) (repo := repo).
Qed.

(** C2, as the code has it: [get_default_branch] returns ["main"] when
    the metadata request succeeds with an object that has no
    [default_branch] field; a field that is present is returned as it
    is, empty or not; a request that fails with a request error gives
    [None] once the error has been printed.  [convert_repo] answers 404
    with the message about the default branch exactly when the branch
    it got is false as a truth value; and the branch is false only when
    the request failed or the field is present with a value that is
    itself false, never when the field is absent. *)
Theorem C2_default_branch_fallback (d : list (str * value))
  (url owner repo : str) (w w1 : W) (answer : res value) :
  lookup (u "url") d = Some (VStr url) ->
  parse_github_url url = (Some owner, Some repo) ->
  truthy_str owner = true -> truthy_str repo = true ->
  net (repo_api_url owner repo) w = (answer, w1) ->
  stdout_ok (log_repository owner repo) = true ->
  (forall body,
      answer = Ok (VDict body) ->
      lookup (u "default_branch") body = None ->
      run net (get_default_branch owner repo) w = (Ok (VStr (u "main")), w1))
  /\ (forall body branch,
         answer = Ok (VDict body) ->
         lookup (u "default_branch") body = Some branch ->
         run net (get_default_branch owner repo) w = (Ok branch, w1))
  /\ (forall e,
         answer = Err e ->
         is_RequestException e = true ->
         stdout_ok (log_repo_error e) = true ->
         run net (get_default_branch owner repo) w = (Ok VNone, w1))
  /\ (forall w',
         run net (convert_repo (VDict d)) w
         = (Ok (JsonError 404 (msg_no_branch owner repo)), w')
         <-> exists branch,
             run net (get_default_branch owner repo) w = (Ok branch, w')
             /\ truthy branch = false)
  /\ (forall branch,
         run net (get_default_branch owner repo) w = (Ok branch, w1) ->
         truthy branch = false ->
         (exists e, answer = Err e /\ is_RequestException e = true)
         \/ (exists body,
                answer = Ok (VDict body)
                /\ lookup (u "default_branch") body = Some branch)).
Proof.
  intros Hd Hp Ho Hr N P.
  rewrite run_convert_repo_parsed
    with (url := url) (owner := owner) (repo := repo); trivial.
  unfold pipeline. rewrite (printed_ok P), run_get_default_branch, N.
  cbn [fst snd].
  split; [| split; [| split; [| split]]].
  - intros body -> Hb. cbn [branch_of dict_get]. now rewrite Hb.
  - intros body branch -> Hb. cbn [branch_of dict_get]. now rewrite Hb.
  - intros e -> He Pe. cbn [branch_of]. now rewrite He, (printed_ok Pe).
  - intros w'. split.
    + destruct (branch_of answer) as [branch | e]; [| discriminate].
      destruct (truthy branch) eqn:T.
      * destruct (printed (log_branch branch)) as [[] | e];
          [| discriminate].
        destruct (net (tree_api_url owner repo branch) w1) as [a2 w2].
        destruct (listing_of owner repo a2) as [[[| fi rest] |] | e];
          try discriminate.
        destruct (printed (log_found _)) as [[] | e]; [| discriminate].
        destruct (run net _ w2) as [[st | e] w3]; [| discriminate].
        destruct (printed _) as [[] | e]; discriminate.
      * intros [= <-]. now exists branch.
    + intros (branch & [= B <-] & T). now rewrite B, T.
  - intros branch [= B] T.
    destruct answer as [data | e]; cbn [branch_of] in B.
    + destruct data as [| | | | | body]; try discriminate B.
      cbn [dict_get] in B.
      destruct (lookup (u "default_branch") body) as [v |] eqn:L.
      * injection B as ->. right. now exists body.
      * injection B as <-. discriminate T.
    + left. exists e. destruct (is_RequestException e); [now split |].
      discriminate B.
Qed.

(** C3: for a file whose path can be printed and whose content is the
    text [text], the loop appends the heading, the opening fence, the
    body and the closing lines, where the body is [text] split into
    lines, without the lines whose trimmed form is empty, rejoined with
    newline; the lines of the body are the other lines of [text],
    unchanged and in order; and the body of ["a\n\n  \nb\n"] is
    ["a\nb"]. *)
Theorem C3_blank_line_filter (fi : file_info) (st : locals) (w w' : W)
  (text : str) :
  stdout_ok (log_file (path fi)) = true ->
  run net (get_file_content (url fi)) w = (Ok (Some text), w') ->
  run net (process_file fi st) w
  = (Ok {| markdown_content :=
             markdown_content st ++
               [heading (path fi); u "```"; spec_filtered_body text;
                u "```" ++ [nl]; u "---" ++ [nl]];
           processed_count := processed_count st + 1;
           skipped_count := skipped_count st |}, w')
  /\ splitlines (spec_filtered_body text)
     = filter (fun line => negb (blank line)) (splitlines text)
  /\ spec_filtered_body (u "a" ++ [nl; nl] ++ u "  " ++ [nl] ++ u "b" ++ [nl])
     = u "a" ++ [nl] ++ u "b".
Proof.
  intros P. rewrite run_get_file_content, run_process_file, (printed_ok P).
  intros [= T <-]. rewrite T. repeat split.
  - unfold add_section, section_parts. cbn [markdown_content processed_count
      skipped_count]. now rewrite process_content_spec, Nat.add_0_r.
  - apply splitlines_filtered.
Qed.

(** C4 fails on the code: when the request for a file fails and the
    message of the handler cannot be printed, [print] raises inside the
    [except] clause, no clause catches it, and [get_file_content]
    raises; the loop of [convert_repo] raises with it, at this file. *)
Theorem C4_failed_print_escapes (fi : file_info) (rest : list file_info)
  (st : locals) (w : W) (e : exn) :
  fst (net (url fi) w) = Err e ->
  stdout_ok (log_content_failed (url fi) e) = false ->
  stdout_ok (log_file (path fi)) = true ->
  run net (get_file_content (url fi)) w
  = (Err UnicodeEncodeError, snd (net (url fi) w))
  /\ run net (process_files (fi :: rest) st) w
     = (Err UnicodeEncodeError, snd (net (url fi) w)).
Proof.
  intros N Pe Pf.
  assert (C : content_of (url fi) (fst (net (url fi) w))
              = Err UnicodeEncodeError).
  { rewrite N. unfold content_of. cbn [res_bind].
    now rewrite (printed_error Pe). }
  split.
  - now rewrite run_get_file_content, C.
  - cbn [process_files].
    now rewrite run_bind, run_process_file, (printed_ok Pf), C.
Qed.


(** C6: once the messages on the way can be printed, when the tree
    listing succeeds and holds no blob, [convert_repo] answers 404 with
    the empty-repository message, not a document; when the tree request
    fails it answers 500 with another message. *)
Theorem C6_empty_listing_not_found (d : list (str * value))
  (url owner repo : str) (branch : value) (w w1 w2 : W) (answer : res value) :
  lookup (u "url") d = Some (VStr url) ->
  parse_github_url url = (Some owner, Some repo) ->
  truthy_str owner = true -> truthy_str repo = true ->
  stdout_ok (log_repository owner repo) = true ->
  run net (get_default_branch owner repo) w = (Ok branch, w1) ->
  truthy branch = true ->
  stdout_ok (log_branch branch) = true ->
  net (tree_api_url owner repo branch) w1 = (answer, w2) ->
  (forall body items,
      answer = Ok (VDict body) ->
      lookup (u "tree") body = Some (VList items) ->
      forallb well_formed_item items = true ->
      filter is_blob items = [] ->
      stdout_ok (log_truncated owner repo) = true ->
      run net (get_repo_files owner repo branch) w1 = (Ok (Some []), w2)
      /\ run net (convert_repo (VDict d)) w
         = (Ok (JsonError 404 (msg_empty owner repo)), w2))
  /\ (forall e,
         answer = Err e ->
         stdout_ok (log_listing_failed e) = true ->
         run net (get_repo_files owner repo branch) w1 = (Ok None, w2)
         /\ run net (convert_repo (VDict d)) w
            = (Ok (JsonError 500 (msg_no_file_list owner repo)), w2))
  /\ JsonError 404 (msg_empty owner repo)
     <> JsonError 500 (msg_no_file_list owner repo).
Proof.
  intros Hd Hp Ho Hr Pr Hb T Pb N.
  rewrite run_convert_repo_parsed
    with (url := url) (owner := owner) (repo := repo); trivial.
  unfold pipeline. rewrite run_get_repo_files, N.
  rewrite run_get_default_branch in Hb.
  destruct (net (repo_api_url owner repo) w) as [a1 w0].
  cbn [fst snd] in *. injection Hb as -> ->.
  rewrite (printed_ok Pr), T, (printed_ok Pb), N.
  split; [| split].
  - intros body items -> Ht Hw Hn Pt.
    rewrite (@listing_of_listing owner repo body items Ht Hw Pt).
    unfold blob_entries. rewrite Hn. split; reflexivity.
  - intros e -> Pe. rewrite (@listing_of_error owner repo e Pe).
    split; reflexivity.
  - discriminate.
Qed.

(** C10: a file whose path can be printed and whose content is the empty
    text, or a text whose lines are all blank, counts as processed, and
    its section has a fenced block with an empty body. *)
Theorem C10_blank_file_is_processed (fi : file_info) (st : locals)
  (w w' : W) (text : str) :
  stdout_ok (log_file (path fi)) = true ->
  run net (get_file_content (url fi)) w = (Ok (Some text), w') ->
  text = [] \/ Forall (fun line => blank line = true) (splitlines text) ->
  run net (process_file fi st) w
  = (Ok {| markdown_content :=
             markdown_content st ++
               [heading (path fi); u "```"; []; u "```" ++ [nl];
                u "---" ++ [nl]];
           processed_count := processed_count st + 1;
           skipped_count := skipped_count st |}, w').
Proof.
  intros P. rewrite run_get_file_content, run_process_file, (printed_ok P).
  intros [= T <-] B.
  rewrite T. unfold add_section, section_parts.
  assert (E : process_content text = []).
  { destruct B as [-> | B]; [reflexivity | now apply all_blank_body]. }
  now rewrite E, Nat.add_0_r.
Qed.

(** ** Further properties of the code *)

(** *** What [parse_github_url] returns *)

Lemma greedy_run_some A (cs : cset) (s acc : str) (k : str -> str -> option A)
  (x : A) :
  greedy cs acc s k = Some x ->
  exists t s', forallb (mem cs) t = true /\ k (acc ++ t) s' = Some x.
Proof.
  revert acc; induction s as [| c s IH]; intros acc; simpl.
  - intros H. exists [], []. now rewrite app_nil_r.
  - destruct (mem cs c) eqn:M.
    + intros H. apply orelse_some in H as [H | H].
      * apply IH in H as (t & s' & Ht & H). exists (c :: t), s'.
        simpl. rewrite M, Ht. split; trivial. now rewrite <- app_assoc in H.
      * exists [], (c :: s). now rewrite app_nil_r.
    + intros H. exists [], (c :: s). now rewrite app_nil_r.
Qed.

(** The groups a match closes hold what [group_ok] promises. *)
Lemma exec_captures A (P : nat * str -> Prop) (r : regex) (s : str)
  (m : captures) (k : cont A) (x : A) :
  group_ok P r ->
  Forall P m ->
  exec r s m k = Some x ->
  exists t s' m',
    k t s' m' = Some x /\ Forall P m'
    /\ map fst m' = group_ids r ++ map fst m.
Proof.
  revert s m k; induction r as [cs | cs | cs | cs | n r IH | r1 IH1 r2 IH2 |];
    intros s m k G Hm H.
  - simpl in H. destruct s as [| c s]; [discriminate |].
    destruct (mem cs c); [| discriminate]. exists [c], s, m. now auto.
  - simpl in H. destruct s as [| c s]; [exists [], [], m; now auto |].
    destruct (mem cs c); [| exists [], (c :: s), m; now auto].
    apply orelse_some in H as [H | H];
      [exists [c], s, m | exists [], (c :: s), m]; now auto.
  - simpl in H. apply greedy_some in H as (t & s' & H). exists t, s', m.
    now auto.
  - simpl in H. destruct s as [| c s]; [discriminate |].
    destruct (mem cs c); [| discriminate].
    apply greedy_some in H as (t & s' & H). exists t, s', m. now auto.
  - destruct r as [| | | cs | | |]; try contradiction.
    cbn [exec] in H. destruct s as [| c s]; [discriminate |].
    destruct (mem cs c) eqn:M; [| discriminate].
    apply greedy_run_some in H as (t & s' & Ht & H).
    exists ([c] ++ t), s', ((n, [c] ++ t) :: m). repeat split; trivial.
    constructor; trivial. apply G; [discriminate |].
    simpl. now rewrite M, Ht.
  - destruct G as [G1 G2]. cbn [exec] in H.
    apply IH1 in H as (t1 & s1 & m1 & H & F1 & E1); trivial.
    apply IH2 in H as (t2 & s2 & m2 & H & F2 & E2); trivial.
    exists (t1 ++ t2), s2, m2. repeat split; trivial.
    cbn [group_ids]. now rewrite E2, E1, app_assoc.
  - exists [], s, m. now auto.
Qed.

Lemma no_slash_firstn (n : nat) (s : str) :
  no_slash s = true -> no_slash (firstn n s) = true.
Proof.
  unfold no_slash. revert n; induction s as [| c s IH]; intros [| n]; simpl;
    trivial.
  intros H. apply andb_prop in H as [-> H]. now rewrite IH.
Qed.

Lemma no_slash_strip_git (repo : str) :
  no_slash repo = true -> no_slash (strip_git repo) = true.
Proof.
  intros H. unfold strip_git, drop_last4.
  destruct (endswith repo (u ".git")); trivial. now apply no_slash_firstn.
Qed.

(** The two groups of a match: non-empty and free of [/]. *)
Lemma match_groups (pattern : regex) (url : str) (m : captures) :
  In pattern patterns ->
  re_match pattern url = Some m ->
  exists owner repo,
    groups m = (Some owner, Some repo)
    /\ owner <> [] /\ no_slash owner = true
    /\ repo <> [] /\ no_slash repo = true.
Proof.
  intros Hin H.
  apply exec_captures
    with (P := fun p => snd p <> [] /\ no_slash (snd p) = true) in H.
  - destruct H as (_ & _ & m' & [= ->] & F & E).
    assert (G : map fst m = [2; 1]).
    { destruct Hin as [<- | [<- | []]]; exact E. }
    destruct m as [| [i2 repo] [| [i1 owner] [| ? ?]]]; try discriminate.
    injection G as -> ->. exists owner, repo.
    inversion F as [| ? ? [R1 R2] F']; subst.
    inversion F' as [| ? ? [O1 O2] _]; subst.
    now repeat split.
  - destruct Hin as [<- | [<- | []]]; cbn; repeat split; trivial.
  - constructor.
Qed.

(** X1: [parse_github_url] returns either [(None, None)] or an owner and
    a repository name together; the owner is never empty, and neither
    contains a [/]. *)
Theorem X1_parse_result_shape (url : str) :
  parse_github_url url = (None, None)
  \/ exists owner repo,
      parse_github_url url = (Some owner, Some repo)
      /\ owner <> [] /\ no_slash owner = true /\ no_slash repo = true.
Proof.
  unfold parse_github_url, patterns, parse_with.
  destruct (re_match pattern_https url) as [m |] eqn:H1.
  - right. apply match_groups in H1 as (owner & repo & -> & ? & ? & ? & ?);
      [| now left].
    exists owner, (strip_git repo). repeat split; trivial.
    now apply no_slash_strip_git.
  - destruct (re_match pattern_ssh url) as [m |] eqn:H2; [| now left].
    right. apply match_groups in H2 as (owner & repo & -> & ? & ? & ? & ?);
      [| now right; left].
    exists owner, (strip_git repo). repeat split; trivial.
    now apply no_slash_strip_git.
Qed.

(** X2: for an HTTPS URL the repository name is the text between the
    second [/] after the host and the next [/] (or the end), less one
    [.git] suffix; whatever follows that [/] changes nothing. *)
Theorem X2_https_path_ignored (owner repo rest : str) :
  owner <> [] -> repo <> [] ->
  no_slash owner = true -> no_slash repo = true ->
  parse_github_url (u "https://github.com/" ++ owner ++ [slash] ++ repo)
  = (Some owner, Some (strip_git repo))
  /\ parse_github_url
       (u "https://github.com/" ++ owner ++ [slash] ++ repo ++ [slash] ++ rest)
     = parse_github_url (u "https://github.com/" ++ owner ++ [slash] ++ repo).
Proof.
  intros Ho Hr So Sr.
  assert (E : parse_github_url
                (u "https://github.com/" ++ owner ++ [slash] ++ repo)
              = (Some owner, Some (strip_git repo))).
  { rewrite <- (app_nil_r repo) at 1. now apply parse_https_shape. }
  split; trivial. rewrite E. now apply parse_https_shape.
Qed.

Lemma greedy_prefix A (cs : cset) (pre acc rest : str)
  (k : str -> str -> option A) (x : A) :
  forallb (mem cs) pre = true ->
  greedy cs (acc ++ pre) rest k = Some x ->
  greedy cs acc (pre ++ rest) k = Some x.
Proof.
  revert acc; induction pre as [| c pre IH]; intros acc Hpre H.
  - now rewrite app_nil_r in H.
  - simpl in Hpre. apply andb_prop in Hpre as [Hc Hpre].
    simpl. rewrite Hc, (IH (acc ++ [c])); trivial.
    now rewrite <- app_assoc.
Qed.

Lemma exec_plus_prefix A (cs : cset) (pre rest : str) (m : captures)
  (k : cont A) (x : A) :
  pre <> [] ->
  forallb (mem cs) pre = true ->
  greedy cs pre rest (fun t s' => k t s' m) = Some x ->
  exec (Plus cs) (pre ++ rest) m k = Some x.
Proof.
  intros Hne Hpre H. destruct pre as [| c pre]; [congruence |].
  simpl in Hpre. apply andb_prop in Hpre as [Hc Hpre].
  simpl. rewrite Hc. now apply greedy_prefix.
Qed.

(** X3: an SSH reference [git@github.com:owner/name.git] parses to the
    owner and the name (less one more [.git] suffix if the name has
    one): the second group gives back the final [.git] it first took. *)
Theorem X3_ssh_shape (owner name : str) :
  owner <> [] -> name <> [] ->
  no_slash owner = true -> no_slash name = true ->
  parse_github_url (u "git@github.com:" ++ owner ++ [slash] ++ name ++ u ".git")
  = (Some owner, Some (strip_git name)).
Proof.
  intros Ho Hn So Sn.
  unfold parse_github_url, patterns, parse_with.
  change (re_match pattern_https
            (u "git@github.com:" ++ owner ++ [slash] ++ name ++ u ".git"))
    with (@None captures).
  assert (E : re_match pattern_ssh
                (u "git@github.com:" ++ owner ++ [slash] ++ name ++ u ".git")
              = Some [(2, name); (1, owner)]).
  { change (re_match pattern_ssh
              (u "git@github.com:" ++ owner ++ [slash] ++ name ++ u ".git"))
      with (exec (Group 1 (Plus (Except slash)) ;; Chr (Lit slash) ;;
                  Group 2 (Plus (Except slash)) ;; Chr (Lit dot) ;;
                  lit (u "git"))%re
              (owner ++ [slash] ++ name ++ u ".git") []
              (fun _ _ m => Some m)).
    rewrite exec_seq, exec_group. apply exec_plus_run; trivial.
    cbv beta. cbn [app]. rewrite exec_seq, exec_chr. cbn [mem].
    unfold char_eqb at 1. rewrite N.eqb_refl.
    rewrite exec_seq, exec_group. apply exec_plus_prefix; trivial. }
  rewrite E. reflexivity.
Qed.

Lemma greedy_no_slash_fails A (s acc : str) (k : str -> str -> option A) :
  no_slash s = true ->
  (forall t s', stops (Lit slash) s' = true -> k t s' = None) ->
  greedy (Except slash) acc s k = None.
Proof.
  intros Hs Hk. revert acc; induction s as [| c s IH]; intros acc.
  - simpl. now apply Hk.
  - unfold no_slash in Hs. simpl in Hs. apply andb_prop in Hs as [Hc Hs].
    simpl. rewrite Hc, IH; trivial. simpl. apply Hk. simpl. exact Hc.
Qed.

(** X4: an HTTPS URL that stops after the owner, with no [/] and
    repository name behind it, is not parsed, and [convert_repo]
    answers 400 without sending any request. *)
Theorem X4_https_without_repo_rejected (owner : str) (d : list (str * value)) :
  no_slash owner = true ->
  lookup (u "url") d = Some (VStr (u "https://github.com/" ++ owner)) ->
  parse_github_url (u "https://github.com/" ++ owner) = (None, None)
  /\ convert_repo (VDict d) = Ret (JsonError 400 msg_invalid_url).
Proof.
  intros So Hd.
  assert (H1 : re_match pattern_https (u "https://github.com/" ++ owner) = None).
  { rewrite re_match_https, exec_seq, exec_group.
    destruct owner as [| c owner]; trivial.
    unfold no_slash in So. simpl in So. apply andb_prop in So as [Hc So].
    cbn [exec mem]. rewrite Hc. apply greedy_no_slash_fails; trivial.
    intros t s' Hs. destruct s' as [| c' s']; trivial.
    simpl in Hs. apply negb_true_iff in Hs. now rewrite Hs. }
  assert (H2 : re_match pattern_ssh (u "https://github.com/" ++ owner) = None)
    by reflexivity.
  assert (P : parse_github_url (u "https://github.com/" ++ owner)
              = (None, None)).
  { unfold parse_github_url, patterns, parse_with. now rewrite H1, H2. }
  split; trivial.
  unfold convert_repo. rewrite (convert_dict _ Hd), P. reflexivity.
Qed.

(** X5: when the repository segment of an HTTPS URL is exactly [.git],
    the pattern matches but stripping the suffix leaves an empty name,
    and [convert_repo] answers 400 without sending any request. *)
Theorem X5_dot_git_repo_rejected (owner tail : str) (d : list (str * value)) :
  owner <> [] -> no_slash owner = true ->
  stops (Except slash) tail = true ->
  lookup (u "url") d
  = Some (VStr (u "https://github.com/" ++ owner ++ [slash] ++ u ".git" ++ tail)) ->
  parse_github_url
    (u "https://github.com/" ++ owner ++ [slash] ++ u ".git" ++ tail)
  = (Some owner, Some [])
  /\ convert_repo (VDict d) = Ret (JsonError 400 msg_invalid_url).
Proof.
  intros Ho So St Hd.
  assert (P : parse_github_url
                (u "https://github.com/" ++ owner ++ [slash] ++ u ".git" ++ tail)
              = (Some owner, Some [])).
  { rewrite parse_https_shape; trivial. discriminate. }
  split; trivial.
  unfold convert_repo. rewrite (convert_dict _ Hd), P.
  destruct owner; [congruence | reflexivity].
Qed.

(** *** The request body *)

(** X6: a request body that is false as a truth value ([None], an empty
    object, ...) or an object without the key [url] is answered 400
    "Missing 'url' in request body" without sending any request. *)
Theorem X6_missing_url (data : value) :
  truthy data = false
  \/ (exists d, data = VDict d /\ lookup (u "url") d = None) ->
  convert_repo data = Ret (JsonError 400 msg_missing_url).
Proof.
  unfold convert_repo, convert. intros [T | (d & -> & H)].
  - now rewrite T.
  - destruct d as [| kv d]; [reflexivity |].
    cbn [truthy negb py_in lift bind]. now rewrite H.
Qed.

(** X7: when the value under [url] is not a string, [re.match] raises
    [TypeError]; nothing catches it, and no request is sent. *)
Theorem X7_url_not_a_string (d : list (str * value)) (v : value) :
  lookup (u "url") d = Some v ->
  (forall s, v <> VStr s) ->
  convert_repo (VDict d) = Raise TypeError.
Proof.
  intros H Hv. unfold convert_repo, convert.
  assert (T : truthy (VDict d) = true)
    by (destruct d; [discriminate | reflexivity]).
  rewrite T. cbn [negb py_in subscript]. rewrite H. cbn [lift bind negb].
  destruct v; try reflexivity. now elim (Hv s).
Qed.

(** X8: when the metadata request succeeds with a body that is not an
    object, [.get] raises [AttributeError], which [get_default_branch]
    does not catch: it catches request errors only.  Once the line
    that names the repository has been printed, the exception leaves
    [convert_repo] after this one request. *)
Theorem X8_metadata_not_an_object (d : list (str * value))
  (url owner repo : str) (w w1 : W) (body : value) :
  lookup (u "url") d = Some (VStr url) ->
  parse_github_url url = (Some owner, Some repo) ->
  truthy_str owner = true -> truthy_str repo = true ->
  stdout_ok (log_repository owner repo) = true ->
  net (repo_api_url owner repo) w = (Ok body, w1) ->
  (forall fields, body <> VDict fields) ->
  run net (get_default_branch owner repo) w = (Err AttributeError, w1)
  /\ run net (convert_repo (VDict d)) w = (Err AttributeError, w1).
Proof.
  intros Hd Hp Ho Hr P N Hb.
  rewrite run_convert_repo_parsed
    with (url := url) (owner := owner) (repo := repo); trivial.
  unfold pipeline.
  rewrite (printed_ok P), run_get_default_branch, N. cbn [fst snd branch_of].
  destruct body as [| | | | | fields]; try (split; reflexivity).
  now elim (Hb fields).
Qed.

(** *** The tree listing *)

Lemma subscript_error (v : value) (key : str) (e : exn) :
  subscript v key = Err e -> is_RequestException e = false.
Proof.
  destruct v; simpl; try (now intros [= <-]).
  destruct (lookup key d); [discriminate | now intros [= <-]].
Qed.

Lemma collect_blobs_malformed (tree : list value) (acc : list file_info) :
  forallb well_formed_item tree = false ->
  exists e, collect_blobs tree acc = Err e /\ is_RequestException e = false.
Proof.
  revert acc; induction tree as [| item tree IH]; intros acc; simpl.
  - discriminate.
  - unfold well_formed_item at 1.
    destruct (subscript item (u "type")) as [ty | e] eqn:E1; cbn [res_bind];
      [| intros _; exists e; split; [reflexivity | exact (subscript_error _ _ E1)]].
    destruct (eq_str ty (u "blob")); [| now apply IH].
    destruct (subscript item (u "path")) as [p | e] eqn:E2; cbn [res_bind];
      [| intros _; exists e; split; [reflexivity | exact (subscript_error _ _ E2)]].
    destruct (subscript item (u "url")) as [l | e] eqn:E3; cbn [res_bind];
      [| intros _; exists e; split; [reflexivity | exact (subscript_error _ _ E3)]].
    now apply IH.
Qed.

(** One malformed item and the listing is given up. *)
Lemma listing_of_malformed (owner repo : str) (d : list (str * value))
  (items : list value) :
  lookup (u "tree") d = Some (VList items) ->
  forallb well_formed_item items = false ->
  stdout_ok (log_truncated owner repo) = true ->
  (forall e, stdout_ok (log_tree_data_error e) = true) ->
  listing_of owner repo (Ok (VDict d)) = Ok None.
Proof.
  intros Ht Hw P Pd. unfold listing_of. cbn [res_bind]. unfold dict_get.
  rewrite Ht, (printed_ok P).
  destruct (collect_blobs_malformed items [] Hw) as (e & C & He).
  destruct (lookup (u "truncated") d) as [t |]; cbn [res_bind py_iter truthy];
    [destruct (truthy t) |]; cbn [res_bind]; rewrite C;
    unfold log_listing_failed; now rewrite He, (printed_ok (Pd e)).
Qed.

(** X9: for a listing given as a list, and once the messages on the
    way can be printed, [get_repo_files] returns the file list exactly
    when every item has a [type] and every blob a [path] and a [url];
    one item that lacks them makes it return [None], and [convert_repo]
    answer 500, however many good items the listing has. *)
Theorem X9_malformed_item_discards_listing (d : list (str * value))
  (url owner repo : str) (branch : value) (w w1 w2 : W)
  (body : list (str * value)) (items : list value) :
  lookup (u "url") d = Some (VStr url) ->
  parse_github_url url = (Some owner, Some repo) ->
  truthy_str owner = true -> truthy_str repo = true ->
  stdout_ok (log_repository owner repo) = true ->
  run net (get_default_branch owner repo) w = (Ok branch, w1) ->
  truthy branch = true ->
  stdout_ok (log_branch branch) = true ->
  net (tree_api_url owner repo branch) w1 = (Ok (VDict body), w2) ->
  lookup (u "tree") body = Some (VList items) ->
  stdout_ok (log_truncated owner repo) = true ->
  (forall e, stdout_ok (log_tree_data_error e) = true) ->
  (exists files,
      run net (get_repo_files owner repo branch) w1 = (Ok files, w2)
      /\ (files = None <-> forallb well_formed_item items = false))
  /\ (forallb well_formed_item items = false ->
      run net (convert_repo (VDict d)) w
      = (Ok (JsonError 500 (msg_no_file_list owner repo)), w2)).
Proof.
  intros Hd Hp Ho Hr Pr Hb T Pb N Ht Pt Pd.
  rewrite run_convert_repo_parsed
    with (url := url) (owner := owner) (repo := repo); trivial.
  unfold pipeline. rewrite run_get_repo_files, N.
  rewrite run_get_default_branch in Hb.
  destruct (net (repo_api_url owner repo) w) as [a1 w0].
  cbn [fst snd] in *. injection Hb as -> ->.
  rewrite (printed_ok Pr), T, (printed_ok Pb), N.
  assert (F := fun Hw => @listing_of_malformed owner repo body items Ht Hw Pt Pd).
  split.
  - destruct (forallb well_formed_item items) eqn:Hw.
    + rewrite (@listing_of_listing owner repo body items Ht Hw Pt).
      eexists. split; [reflexivity |]. split; discriminate.
    + rewrite (F eq_refl). eexists. split; [reflexivity |]. now split.
  - intros Hw. now rewrite (F Hw).
Qed.

(** X10: once the messages on the way can be printed, a successful
    listing without the key [tree] counts as empty: [get_repo_files]
    returns the empty list and [convert_repo] answers 404 with the
    empty-repository message. *)
Theorem X10_listing_without_tree (d : list (str * value))
  (url owner repo : str) (branch : value) (w w1 w2 : W)
  (body : list (str * value)) :
  lookup (u "url") d = Some (VStr url) ->
  parse_github_url url = (Some owner, Some repo) ->
  truthy_str owner = true -> truthy_str repo = true ->
  stdout_ok (log_repository owner repo) = true ->
  run net (get_default_branch owner repo) w = (Ok branch, w1) ->
  truthy branch = true ->
  stdout_ok (log_branch branch) = true ->
  net (tree_api_url owner repo branch) w1 = (Ok (VDict body), w2) ->
  lookup (u "tree") body = None ->
  stdout_ok (log_truncated owner repo) = true ->
  run net (get_repo_files owner repo branch) w1 = (Ok (Some []), w2)
  /\ run net (convert_repo (VDict d)) w
     = (Ok (JsonError 404 (msg_empty owner repo)), w2).
Proof.
  intros Hd Hp Ho Hr Pr Hb T Pb N Ht Pt.
  rewrite run_convert_repo_parsed
    with (url := url) (owner := owner) (repo := repo); trivial.
  unfold pipeline. rewrite run_get_repo_files, N.
  rewrite run_get_default_branch in Hb.
  destruct (net (repo_api_url owner repo) w) as [a1 w0].
  cbn [fst snd] in *. injection Hb as -> ->.
  rewrite (printed_ok Pr), T, (printed_ok Pb), N.
  assert (F : listing_of owner repo (Ok (VDict body)) = Ok (Some [])).
  { unfold listing_of. cbn [res_bind]. unfold dict_get.
    rewrite Ht, (printed_ok Pt).
    destruct (lookup (u "truncated") body) as [t |]; cbn [res_bind truthy];
      [destruct (truthy t) |]; reflexivity. }
  rewrite F. split; reflexivity.
Qed.

(** *** The requests a conversion sends *)

Lemma requests_bind A B (p : prog A) (f : A -> prog B) (w : W) :
  requests (bind p f) w =
  requests p w
    ++ match run net p w with
       | (Ok a, w') => requests (f a) w'
       | (Err _, _) => []
       end.
Proof.
  revert w; induction p as [a | e | l k IH]; intros w; simpl; trivial.
  f_equal. destruct (net l w) as [o w']. apply IH.
Qed.

(** Handlers that send no request add none. *)
Lemma requests_try_except A (p : prog A) (handlers : exn -> option (prog A))
  (w : W) :
  (forall e h w', handlers e = Some h -> requests h w' = []) ->
  requests (try_except p handlers) w = requests p w.
Proof.
  intros Q.
  revert w; induction p as [x | e | l k IH]; intros w; simpl; trivial.
  - destruct (handlers e) as [h |] eqn:E; [now apply (Q e) | reflexivity].
  - f_equal. destruct (net l w) as [o w']. apply IH.
Qed.

Lemma requests_lift A (r : res A) (w : W) : requests (lift r) w = [].
Proof. now destruct r. Qed.

Lemma requests_print_then A (text : str) (a : A) (w : W) :
  requests (let* _ := py_print text in Ret a) w = [].
Proof.
  unfold py_print. rewrite requests_bind, requests_lift, run_lift.
  now destruct (printed text).
Qed.

Lemma requests_fetch_then A (l : value) (f : value -> prog A) (w : W) :
  (forall v w', requests (f v) w' = []) ->
  requests (bind (fetch_json l) f) w = [l].
Proof.
  intros Hf. rewrite requests_bind. unfold fetch_json at 1. cbn [requests].
  rewrite run_fetch_json. destruct (net l w) as [[v | e] w'];
    rewrite requests_lift; cbn [app]; now rewrite ?Hf.
Qed.

Lemma requests_get_default_branch (owner repo : str) (w : W) :
  requests (get_default_branch owner repo) w = [repo_api_url owner repo].
Proof.
  unfold get_default_branch. rewrite requests_try_except.
  - apply requests_fetch_then. intros. apply requests_lift.
  - intros e h w'. cbn [except].
    destruct (is_RequestException e); [| discriminate].
    intros [= <-]. apply requests_print_then.
Qed.

Lemma requests_get_repo_files (owner repo : str) (branch : value) (w : W) :
  requests (get_repo_files owner repo branch) w
  = [tree_api_url owner repo branch].
Proof.
  unfold get_repo_files. rewrite requests_try_except.
  - apply requests_fetch_then. intros data w'.
    rewrite requests_bind, requests_lift, run_lift.
    destruct (dict_get data (u "truncated") VNone) as [t |]; trivial.
    cbn [app]. rewrite requests_bind.
    assert (P : requests (if truthy t then py_print (log_truncated owner repo)
                          else Ret tt) w' = []).
    { destruct (truthy t); [apply requests_lift | reflexivity]. }
    rewrite P. clear P. cbn [app].
    destruct (run net _ w') as [[[] | e] w'']; trivial.
    rewrite requests_bind, requests_lift, run_lift.
    destruct (dict_get data (u "tree") (VList [])) as [tree |]; trivial.
    cbn [app]. rewrite requests_bind, requests_lift, run_lift.
    destruct (py_iter tree) as [items |]; trivial. cbn [app].
    rewrite requests_bind, requests_lift, run_lift.
    now destruct (collect_blobs items []).
  - intros e h w'. cbn [except is_Exception].
    destruct (is_RequestException e); intros [= <-];
      apply requests_print_then.
Qed.

Lemma requests_get_file_content (l : value) (w : W) :
  requests (get_file_content l) w = [l].
Proof.
  unfold get_file_content. rewrite requests_try_except.
  - apply requests_fetch_then. intros blob w'.
    rewrite requests_bind, requests_lift, run_lift.
    destruct (dict_get blob (u "encoding") VNone) as [enc |]; trivial.
    cbn [app]. destruct (eq_str enc (u "base64")).
    + rewrite requests_bind, requests_lift, run_lift.
      destruct (subscript blob (u "content")) as [c |]; trivial. cbn [app].
      rewrite requests_bind, requests_lift, run_lift.
      destruct (b64decode c) as [bs |]; trivial. cbn [app].
      rewrite requests_try_except; [now destruct (utf8_decode bs) |].
      intros e h w0. cbn [except].
      destruct (is_UnicodeDecodeError e); [| discriminate].
      intros [= <-]. apply requests_print_then.
    + rewrite requests_bind, requests_lift, run_lift. cbn [app].
      apply requests_print_then.
  - intros e h w'. cbn [except is_Exception].
    destruct (is_RequestException e); intros [= <-];
      apply requests_print_then.
Qed.

(** An iteration asks for its file once the path has been printed. *)
Lemma requests_process_file (fi : file_info) (st : locals) (w : W) :
  requests (process_file fi st) w =
  match printed (log_file (path fi)) with
  | Ok _ => [url fi]
  | Err _ => []
  end.
Proof.
  unfold process_file.
  rewrite requests_bind, run_print. unfold py_print at 1.
  rewrite requests_lift. cbn [app].
  destruct (printed (log_file (path fi))) as [[] | e]; trivial.
  rewrite requests_bind, requests_get_file_content.
  destruct (run net (get_file_content (url fi)) w) as [[[text |] | e] w'];
    reflexivity.
Qed.

(** A loop that comes to its end has asked for every file, in order. *)
Lemma requests_process_files_ok (files : list file_info) (st st' : locals)
  (w w' : W) :
  run net (process_files files st) w = (Ok st', w') ->
  requests (process_files files st) w = map url files.
Proof.
  revert st w; induction files as [| fi rest IH]; intros st w; trivial.
  cbn [process_files map].
  rewrite run_bind, requests_bind, requests_process_file.
  rewrite run_process_file.
  destruct (printed (log_file (path fi))) as [[] | e]; [| discriminate].
  destruct (content_of (url fi) (fst (net (url fi) w))) as [c | e];
    [| discriminate].
  intros H. cbn [app]. f_equal. exact (IH _ _ H).
Qed.

Lemma requests_convert_known (owner repo : str) (w : W) :
  requests (convert_known owner repo) w = pipeline_requests owner repo w.
Proof.
  unfold convert_known, pipeline_requests.
  rewrite requests_bind, run_print. unfold py_print at 1.
  rewrite requests_lift. cbn [app].
  destruct (printed (log_repository owner repo)) as [[] | e]; trivial.
  rewrite requests_bind, requests_get_default_branch, run_get_default_branch.
  destruct (net (repo_api_url owner repo) w) as [a1 w1]; cbn [fst snd app].
  f_equal.
  destruct (branch_of a1) as [branch | e]; trivial.
  destruct (truthy branch); cbn [negb]; trivial.
  rewrite requests_bind, run_print. unfold py_print at 1.
  rewrite requests_lift. cbn [app].
  destruct (printed (log_branch branch)) as [[] | e]; trivial.
  rewrite requests_bind, requests_get_repo_files, run_get_repo_files.
  destruct (net (tree_api_url owner repo branch) w1) as [a2 w2].
  cbn [fst snd app]. f_equal.
  destruct (listing_of owner repo a2) as [[[| fi rest] |] | e]; trivial.
  rewrite requests_bind, run_print. unfold py_print at 1.
  rewrite requests_lift. cbn [app].
  destruct (printed (log_found (length (fi :: rest)))) as [[] | e]; trivial.
  rewrite requests_bind. fold (initial owner repo).
  destruct (run net (process_files (fi :: rest) (initial owner repo)) w2)
    as [[st | e] w3]; cbn [requests]; apply app_nil_r.
Qed.

Lemma requests_convert_repo (data : value) (w : W) :
  requests (convert_repo data) w = requests (convert data) w.
Proof.
  unfold convert_repo. rewrite requests_bind.
  destruct (run net (convert data) w) as [[[status msg | st] | e] w'];
    rewrite ?requests_print_then; cbn [requests]; apply app_nil_r.
Qed.

(** The view sends nothing, or it is [convert_known] for some owner and
    repository. *)
Lemma convert_cases (data : value) :
  (exists r, convert data = Ret (Failed 400 r))
  \/ (exists e, convert data = Raise e)
  \/ exists owner repo, convert data = convert_known owner repo.
Proof.
  unfold convert. destruct (truthy data); cbn [negb]; [| now eauto].
  destruct (py_in (u "url") data) as [[|] | e]; cbn [lift bind negb];
    [| now eauto | now eauto].
  destruct (subscript data (u "url")) as [v | e]; cbn [lift bind];
    [| now eauto].
  destruct (parse_value v) as [[[owner |] [repo |]] | e]; cbn [lift bind];
    try now eauto.
  destruct (negb (truthy_str owner) || negb (truthy_str repo)); now eauto 6.
Qed.

(** X11: a conversion that ends with a document has sent the metadata
    request, the tree request and then one request per file, for the
    file's [url], in the order of the file list, and nothing else. *)
Theorem X11_requests_of_a_conversion (data : value) (w w' : W) (st : locals) :
  run net (convert data) w = (Ok (Converted st), w') ->
  exists link owner repo branch files w1 w2,
    subscript data (u "url") = Ok (VStr link)
    /\ parse_github_url link = (Some owner, Some repo)
    /\ run net (get_default_branch owner repo) w = (Ok branch, w1)
    /\ run net (get_repo_files owner repo branch) w1 = (Ok (Some files), w2)
    /\ requests (convert_repo data) w
       = repo_api_url owner repo :: tree_api_url owner repo branch
         :: map url files.
Proof.
  intros H. rewrite requests_convert_repo.
  apply convert_converted in H
    as (s & owner & repo & Hu & Hp & _ & _ & E & H).
  rewrite E, requests_convert_known.
  unfold pipeline in H. unfold pipeline_requests.
  destruct (printed (log_repository owner repo)) as [[] | e];
    [| discriminate].
  destruct (net (repo_api_url owner repo) w) as [a1 w1] eqn:N1.
  destruct (branch_of a1) as [branch | e] eqn:B; [| discriminate].
  destruct (truthy branch); [| discriminate].
  destruct (printed (log_branch branch)) as [[] | e]; [| discriminate].
  destruct (net (tree_api_url owner repo branch) w1) as [a2 w2] eqn:N2.
  destruct (listing_of owner repo a2) as [[[| fi rest] |] | e] eqn:F;
    try discriminate.
  destruct (printed (log_found _)) as [[] | e]; [| discriminate].
  destruct (run net (process_files (fi :: rest) (initial owner repo)) w2)
    as [[st0 | e] w3] eqn:L; [| discriminate].
  exists s, owner, repo, branch, (fi :: rest), w1, w2.
  rewrite run_get_default_branch, run_get_repo_files, N1, N2. cbn [fst snd].
  rewrite B, F, (requests_process_files_ok _ _ _ L).
  repeat split; trivial.
Qed.

(** X12: a conversion that is answered with an error response has sent
    at most two requests: no blob is requested before such an answer. *)
Theorem X12_no_blob_request_on_failure (data : value) (w w' : W)
  (status : nat) (msg : str) :
  run net (convert_repo data) w = (Ok (JsonError status msg), w') ->
  length (requests (convert_repo data) w) <= 2.
Proof.
  rewrite requests_convert_repo, run_convert_repo.
  destruct (convert_cases data) as [[r E] | [[e E] | (owner & repo & E)]];
    rewrite E; cbn [requests length]; try lia.
  rewrite run_convert_known, requests_convert_known.
  unfold pipeline, pipeline_requests.
  destruct (printed (log_repository owner repo)) as [[] | e];
    cbn [length]; try lia.
  destruct (net (repo_api_url owner repo) w) as [a1 w1].
  destruct (branch_of a1) as [branch | e]; cbn [length]; try lia.
  destruct (truthy branch); cbn [length]; try lia.
  destruct (printed (log_branch branch)) as [[] | e]; cbn [length]; try lia.
  destruct (net (tree_api_url owner repo branch) w1) as [a2 w2].
  destruct (listing_of owner repo a2) as [[[| fi rest] |] | e];
    cbn [length]; try lia.
  destruct (printed (log_found _)) as [[] | e]; cbn [length]; try lia.
  destruct (run net (process_files (fi :: rest) (initial owner repo)) w2)
    as [[st | e] w3]; [| discriminate].
  destruct (printed _) as [[] | e]; discriminate.
Qed.

Lemma sections_length (sections : list (file_info * option str)) :
  length (concat (map (fun s => section_parts (path (fst s)) (snd s))
                    sections))
  = 5 * length (filter is_text sections)
    + 3 * length (filter (fun s => negb (is_text s)) sections).
Proof.
  induction sections as [| [fi c] rest IH]; trivial.
  cbn [map concat filter fst snd]. rewrite length_app, IH.
  destruct c as [text |];
    [change (is_text (fi, Some text)) with true
    | change (is_text (fi, None)) with false];
    cbn [section_parts negb length]; lia.
Qed.

(** X13: after a conversion [processed_count] is the number of files
    whose content came back as text and [skipped_count] the number of
    the others, and [markdown_content] holds the title, five strings
    per processed file and three per skipped one. *)
Theorem X13_counts_by_kind (data : value) (w w' : W) (st : locals) :
  run net (convert data) w = (Ok (Converted st), w') ->
  exists link owner repo branch files w1 w2,
    subscript data (u "url") = Ok (VStr link)
    /\ parse_github_url link = (Some owner, Some repo)
    /\ run net (get_default_branch owner repo) w = (Ok branch, w1)
    /\ run net (get_repo_files owner repo branch) w1 = (Ok (Some files), w2)
    /\ processed_count st = length (filter is_text (fetched files w2))
    /\ skipped_count st
       = length (filter (fun s => negb (is_text s)) (fetched files w2))
    /\ length (markdown_content st)
       = 1 + 5 * processed_count st + 3 * skipped_count st.
Proof.
  intros H. apply converted_stages in H
    as (link & owner & repo & branch & files & w1 & w2
        & Hu & Hp & Hb & Hf & _ & -> & _).
  exists link, owner, repo, branch, files, w1, w2.
  destruct (add_sections_counts (fetched files w2) (initial owner repo))
    as [Ep Es].
  repeat split; trivial.
  rewrite Ep, Es, add_sections_markdown, length_app, sections_length.
  cbn [initial markdown_content processed_count skipped_count length]. lia.
Qed.

(** X14: [get_file_content] returns a text exactly when the request
    succeeds with an object whose [encoding] is ["base64"], whose
    [content] is present and accepted by [b64decode], and whose bytes
    decode as UTF-8; the text is the decoded one. *)
Theorem X14_text_exactly_when_decodable (l : value) (w w' : W) (text : str) :
  run net (get_file_content l) w = (Ok (Some text), w')
  <-> exists blob encoding content content_bytes,
      net l w = (Ok blob, w')
      /\ dict_get blob (u "encoding") VNone = Ok encoding
      /\ eq_str encoding (u "base64") = true
      /\ subscript blob (u "content") = Ok content
      /\ b64decode content = Ok content_bytes
      /\ utf8_decode content_bytes = Some text.
Proof.
  rewrite run_get_file_content. split.
  - destruct (net l w) as [answer w0]; cbn [fst snd].
    intros [= C <-]. apply content_of_some in C. revert C.
    destruct answer as [blob | e]; cbn [text_of]; [| discriminate].
    destruct (dict_get blob (u "encoding") VNone) as [enc | e] eqn:He;
      [| discriminate].
    destruct (eq_str enc (u "base64")) eqn:Hb; [| discriminate].
    destruct (subscript blob (u "content")) as [c | e] eqn:Hc;
      [| discriminate].
    destruct (b64decode c) as [bs | e] eqn:Hd; [| discriminate].
    intros Hu. exists blob, enc, c, bs. now repeat split.
  - intros (blob & enc & c & bs & N & He & Hb & Hc & Hd & Hu).
    rewrite N. cbn [fst snd]. f_equal. apply content_of_some.
    cbn [text_of]. now rewrite He, Hb, Hc, Hd, Hu.
Qed.

(** X20: on a standard output that takes every text,
    [get_file_content] never raises: it returns the text or [None]; it
    returns [None] when the request fails with any exception, when the
    declared encoding is not [base64], and when the bytes are not valid
    UTF-8.  The loop then comes to its end with one section per file,
    and a file whose content is [None] gets the heading, the fixed
    notice and the separator, and adds one to the skipped count only. *)
Theorem X20_failures_absorbed_when_printable (fi : file_info) (st : locals)
  (w : W) :
  (forall text, stdout_ok text = true) ->
  (exists content,
      run net (get_file_content (url fi)) w
      = (Ok content, snd (net (url fi) w)))
  /\ (forall e,
         fst (net (url fi) w) = Err e ->
         fst (run net (get_file_content (url fi)) w) = Ok None)
  /\ (forall blob encoding,
         fst (net (url fi) w) = Ok blob ->
         dict_get blob (u "encoding") VNone = Ok encoding ->
         eq_str encoding (u "base64") = false ->
         fst (run net (get_file_content (url fi)) w) = Ok None)
  /\ (forall blob encoding content content_bytes,
         fst (net (url fi) w) = Ok blob ->
         dict_get blob (u "encoding") VNone = Ok encoding ->
         eq_str encoding (u "base64") = true ->
         subscript blob (u "content") = Ok content ->
         b64decode content = Ok content_bytes ->
         utf8_decode content_bytes = None ->
         fst (run net (get_file_content (url fi)) w) = Ok None)
  /\ (forall files,
         run net (process_files files st) w
         = (Ok (add_sections st (fetched files w)), snd (fetch_all files w)))
  /\ (fst (run net (get_file_content (url fi)) w) = Ok None ->
      fst (run net (process_file fi st) w)
      = Ok {| markdown_content :=
                markdown_content st ++
                  [heading (path fi); skip_notice; u "---" ++ [nl]];
              processed_count := processed_count st;
              skipped_count := skipped_count st + 1 |}).
Proof.
  intros P.
  rewrite run_get_file_content, run_process_file, (printed_ok (P _)).
  rewrite content_of_printable by exact P. cbn [fst snd].
  repeat split.
  - eexists. reflexivity.
  - intros e ->. reflexivity.
  - intros blob enc -> He Hb. cbn [text_of]. now rewrite He, Hb.
  - intros blob enc c bs -> He Hb Hc Hd Hu. cbn [text_of].
    now rewrite He, Hb, Hc, Hd, Hu.
  - intros files. now apply run_process_files_printable.
  - intros [= ->]. unfold add_section. cbn [section_parts].
    now rewrite Nat.add_0_r.
Qed.

(** *** The filter on lines *)

Lemma existsb_negb_forallb A (f : A -> bool) (l : list A) :
  existsb (fun x => negb (f x)) l = negb (forallb f l).
Proof.
  induction l as [| x l IH]; simpl; trivial.
  rewrite IH. now destruct (f x).
Qed.

(** X15: the test [if line.strip()] keeps a line exactly when it has a
    character that is not white space. *)
Theorem X15_line_kept_iff_not_white (line : str) :
  truthy_str (strip line) = existsb (fun c => negb (is_space c)) line.
Proof.
  rewrite existsb_negb_forallb, <- blank_spaces. unfold blank, truthy_str.
  now destruct (strip line).
Qed.

Lemma filter_idem A (f : A -> bool) (l : list A) :
  filter f (filter f l) = filter f l.
Proof.
  induction l as [| x l IH]; simpl; trivial.
  destruct (f x) eqn:E; simpl; rewrite ?E, IH; trivial.
Qed.

(** X16: filtering a filtered body again changes nothing. *)
Theorem X16_process_content_idempotent (content : str) :
  process_content (process_content content) = process_content content.
Proof.
  rewrite !process_content_spec.
  unfold spec_filtered_body at 1. rewrite splitlines_filtered, filter_idem.
  reflexivity.
Qed.

Lemma in_joined_tail (sep : str) (parts : list str) (c : char) :
  In c (concat (map (app sep) parts)) ->
  In c sep \/ exists part, In part parts /\ In c part.
Proof.
  induction parts as [| p ps IH]; [intros [] |].
  cbn [map concat]. intros H.
  apply in_app_or in H as [H | H]; [apply in_app_or in H as [H | H] |].
  - now left.
  - right. exists p. split; [now left | trivial].
  - destruct (IH H) as [I | (part & I1 & I2)]; [now left |].
    right. exists part. split; [now right | trivial].
Qed.

Lemma in_join (sep : str) (parts : list str) (c : char) :
  In c (join sep parts) ->
  In c sep \/ exists part, In part parts /\ In c part.
Proof.
  destruct parts as [| p ps]; [intros [] |].
  rewrite join_cons. intros H. apply in_app_or in H as [H | H].
  - right. exists p. split; [now left | trivial].
  - destruct (in_joined_tail _ _ _ H) as [I | (part & I1 & I2)]; [now left |].
    right. exists part. split; [now right | trivial].
Qed.

(** X17: in a filtered body every line has a character that is not
    white space, and the only line boundary that occurs is the line
    feed: carriage returns, form feeds and the other separators of
    [splitlines] are gone. *)
Theorem X17_body_lines (content : str) :
  Forall (fun line => truthy_str (strip line) = true)
    (splitlines (process_content content))
  /\ (forall c,
         In c (process_content content) -> is_linebreak c = true -> c = nl).
Proof.
  rewrite process_content_spec. split.
  - rewrite splitlines_filtered. apply Forall_forall. intros line H.
    apply filter_In in H as [_ H]. unfold blank in H. unfold truthy_str.
    now destruct (strip line).
  - intros c H L. unfold spec_filtered_body in H.
    apply in_join in H as [[<- | []] | (line & H1 & H2)]; trivial.
    apply filter_In in H1 as [H1 _].
    assert (N := splitlines_no_linebreak content).
    rewrite Forall_forall in N. specialize (N line H1).
    unfold no_linebreak in N. rewrite forallb_forall in N.
    specialize (N c H2). rewrite L in N. discriminate.
Qed.

Lemma splitlines_from_break (cur rest : str) (sep : char) :
  is_linebreak sep = true ->
  no_linebreak rest = true ->
  splitlines_from cur (sep :: rest) = cur :: splitlines_from [] rest.
Proof.
  intros Hs Hr. cbn [splitlines_from]. rewrite Hs.
  destruct (char_eqb sep cr); trivial.
  destruct rest as [| d rest]; trivial.
  destruct (char_eqb d nl) eqn:E; trivial.
  apply N.eqb_eq in E. subst d. discriminate Hr.
Qed.

Lemma splitlines_one (line : str) :
  line <> [] -> no_linebreak line = true -> splitlines line = [line].
Proof.
  intros Hne Hnb. unfold splitlines.
  assert (E := splitlines_from_run line [] [] Hnb).
  rewrite app_nil_r in E. rewrite E. cbn [app splitlines_from].
  destruct line; [now elim Hne | reflexivity].
Qed.

(** X18: two lines that are not blank come out joined by one line feed,
    whether the content separated them by a line feed, a carriage
    return, a carriage return and a line feed, or any other line
    boundary; and a final line terminator is dropped. *)
Theorem X18_line_endings_normalised (a b : str) :
  no_linebreak a = true -> no_linebreak b = true ->
  truthy_str (strip a) = true -> truthy_str (strip b) = true ->
  process_content (a ++ [cr; nl] ++ b) = a ++ [nl] ++ b
  /\ (forall sep, is_linebreak sep = true ->
        process_content (a ++ [sep] ++ b) = a ++ [nl] ++ b
        /\ process_content (a ++ [sep]) = a).
Proof.
  intros Ha Hb Ta Tb.
  assert (Nb : b <> []) by (intros ->; discriminate Tb).
  assert (Na : a <> []) by (intros ->; discriminate Ta).
  assert (S1 : splitlines b = [b]) by now apply splitlines_one.
  unfold process_content, splitlines in *. split; [| intros sep Hs; split].
  - rewrite splitlines_from_run; trivial. cbn [app splitlines_from].
    change (is_linebreak cr) with true. change (char_eqb cr cr) with true.
    change (char_eqb nl nl) with true. cbv iota. rewrite S1.
    cbn [filter]. now rewrite Ta, Tb.
  - rewrite splitlines_from_run; trivial. cbn [app].
    rewrite splitlines_from_break, S1; trivial.
    cbn [filter]. now rewrite Ta, Tb.
  - rewrite splitlines_from_run; trivial. cbn [app].
    rewrite splitlines_from_break; trivial.
    cbn [splitlines_from filter]. now rewrite Ta.
Qed.

Lemma join_length_cons (x : str) (l : list str) :
  length x <= length (join [nl] (x :: l))
  /\ length (join [nl] l) <= length (join [nl] (x :: l))
  /\ length (join [nl] (x :: l)) <= length x + 1 + length (join [nl] l).
Proof.
  destruct l as [| y l].
  - simpl. lia.
  - change (join [nl] (x :: y :: l)) with (x ++ [nl] ++ join [nl] (y :: l)).
    rewrite !length_app. change (length [nl]) with 1. lia.
Qed.

Lemma join_filter_length (f : str -> bool) (l : list str) :
  length (join [nl] (filter f l)) <= length (join [nl] l).
Proof.
  induction l as [| x l IH]; trivial.
  cbn [filter]. destruct (f x).
  - destruct (filter f l) as [| y l'] eqn:E.
    + apply join_length_cons.
    + destruct l as [| z l]; [discriminate E |].
      change (join [nl] (x :: y :: l')) with (x ++ [nl] ++ join [nl] (y :: l')).
      change (join [nl] (x :: z :: l)) with (x ++ [nl] ++ join [nl] (z :: l)).
      rewrite !length_app. change (length [nl]) with 1. lia.
  - destruct (join_length_cons x l) as (_ & H & _). lia.
Qed.

Lemma splitlines_from_length (n : nat) (s cur : str) :
  length s <= n ->
  length (join [nl] (splitlines_from cur s)) <= length cur + length s.
Proof.
  revert s cur. induction n as [| n IH]; intros s cur Hlen;
    destruct s as [| c s]; simpl in Hlen; try lia.
  - simpl. destruct cur; simpl; lia.
  - simpl. destruct cur; simpl; lia.
  - cbn [splitlines_from]. destruct (is_linebreak c).
    + assert (T : forall rest, length rest <= length s ->
                    length (join [nl] (cur :: splitlines_from [] rest))
                    <= length cur + length (c :: s)).
      { intros rest Hr.
        destruct (join_length_cons cur (splitlines_from [] rest)) as (_ & _ & H).
        assert (H' := IH rest [] ltac:(lia)). simpl in *. lia. }
      destruct (char_eqb c cr); [destruct s as [| d s] |];
        try destruct (char_eqb d nl); apply T; simpl; lia.
    + assert (H := IH s (cur ++ [c]) ltac:(lia)).
      rewrite length_app in H. simpl in *. lia.
Qed.

(** X19: the filtered body is never longer than the content. *)
Theorem X19_body_not_longer (content : str) :
  length (process_content content) <= length content.
Proof.
  unfold process_content, splitlines.
  assert (H := splitlines_from_length (n := length content) content []
                 (Nat.le_refl _)).
  assert (F := join_filter_length (fun line => truthy_str (strip line))
                 (splitlines_from [] content)).
  simpl in H. lia.
Qed.

End Pipeline.

(** ** The pipeline on the sample repository *)

Abbreviation py := Lib.py_str (only parsing).
Abbreviation b64 := Lib.b64decode (only parsing).
Abbreviation utf := Lib.utf8_decode (only parsing).
Abbreviation out := Lib.utf8_stdout (only parsing).
Abbreviation es := Lib.exn_str (only parsing).
Abbreviation on t := (Lib.table_net t) (only parsing).

Example demo_conversion :
  run (on Demo.network)
    (convert_repo py b64 utf out es (Demo.request "https://github.com/o/r")) 0
  = (Ok (Markdown Demo.document), 4).
Proof. vm_compute. reflexivity. Qed.

Example demo_counts :
  fst (run (on Demo.network)
         (convert py b64 utf out es (Demo.request "git@github.com:o/r.git")) 0)
  = Ok (Converted
          {| markdown_content :=
               [title (u "o") (u "r");
                heading py (VStr (u "a.txt")); u "```";
                u "hello" ++ [nl] ++ u "world"; u "```" ++ [nl]; u "---" ++ [nl];
                heading py (VStr (u "b.bin"));
                skip_notice; u "---" ++ [nl]];
             processed_count := 1;
             skipped_count := 1 |}).
Proof. vm_compute. reflexivity. Qed.

(** On the repository whose only file has a URL that a UTF-8 standard
    output cannot encode, the conversion raises at that file, after
    three requests. *)
Example demo_escape :
  run (on Demo.network_odd_url)
    (convert_repo py b64 utf out es (Demo.request "https://github.com/o/r")) 0
  = (Err UnicodeEncodeError, 3).
Proof. vm_compute. reflexivity. Qed.

(** The same when the file is fetched and its bytes are not UTF-8: the
    message about the binary file cannot be printed, [except Exception]
    catches that, and its own message cannot be printed either. *)
Example demo_escape_binary :
  run (on Demo.network_odd_binary)
    (convert_repo py b64 utf out es (Demo.request "https://github.com/o/r")) 0
  = (Err UnicodeEncodeError, 3).
Proof. vm_compute. reflexivity. Qed.

(** C1 on the sample repository: the document is the one written out
    in [Demo.document]. *)
Lemma C1_witness :
  exists url owner repo branch files w1 w2,
    subscript (Demo.request "https://github.com/o/r") (u "url") = Ok (VStr url)
    /\ parse_github_url url = (Some owner, Some repo)
    /\ run (on Demo.network) (get_default_branch out es owner repo) 0
       = (Ok branch, w1)
    /\ run (on Demo.network) (get_repo_files py out es owner repo branch) w1
       = (Ok (Some files), w2)
    /\ (exists listing items,
           Lib.table_net Demo.network (tree_api_url py owner repo branch) w1
           = (Ok listing, w2)
           /\ tree_items listing = Ok items
           /\ files = blob_entries items)
    /\ map fst (fetched b64 utf (on Demo.network) files w2) = files
    /\ Demo.document
       = spec_document py owner repo
           (fetched b64 utf (on Demo.network) files w2).
Proof.
  apply (@C1_document_layout py b64 utf out es nat (on Demo.network)
           (Demo.request "https://github.com/o/r") 0 4 Demo.document).
  vm_compute. reflexivity.
Defined.

Ltac by_computation := vm_compute; reflexivity.

(** C2 as stated fails: the metadata request succeeds with an empty
    [default_branch], the branch returned is the empty string, not
    ["main"], and the conversion ends with 404 although no request
    failed. *)
Lemma C2_counterexample :
  Lib.table_net Demo.network_empty_field (repo_api_url (u "o") (u "r")) 0
  = (Ok (VDict [(u "default_branch", VStr [])]), 1)
  /\ run (on Demo.network_empty_field)
       (get_default_branch out es (u "o") (u "r")) 0
     = (Ok (VStr []), 1)
  /\ VStr [] <> VStr (u "main")
  /\ run (on Demo.network_empty_field)
       (convert_repo py b64 utf out es
          (Demo.request "https://github.com/o/r")) 0
     = (Ok (JsonError 404 (msg_no_branch (u "o") (u "r"))), 1).
Proof.
  repeat split; try by_computation. discriminate.
Qed.

(** C2 on three networks: no field, an empty field and the conversion
    that follows it, a failed request and where its [None] comes
    from. *)
Lemma C2_witness :
  run (on Demo.network_no_field) (get_default_branch out es (u "o") (u "r")) 0
  = (Ok (VStr (u "main")), 1)
  /\ run (on Demo.network_empty_field)
       (get_default_branch out es (u "o") (u "r")) 0
     = (Ok (VStr []), 1)
  /\ run (on []) (get_default_branch out es (u "o") (u "r")) 0
     = (Ok VNone, 1)
  /\ run (on Demo.network_empty_field)
       (convert_repo py b64 utf out es
          (Demo.request "https://github.com/o/r")) 0
     = (Ok (JsonError 404 (msg_no_branch (u "o") (u "r"))), 1)
  /\ ((exists e,
          @Err value RequestException = Err e
          /\ is_RequestException e = true)
      \/ (exists body,
             Err RequestException = Ok (VDict body)
             /\ lookup (u "default_branch") body = Some VNone)).
Proof.
  assert (T := fun t answer =>
            @C2_default_branch_fallback py b64 utf out es nat (on t)
              [(u "url", VStr (u "https://github.com/o/r"))]
              (u "https://github.com/o/r") (u "o") (u "r") 0 1 answer
              eq_refl eq_refl eq_refl eq_refl).
  split; [| split; [| split; [| split]]].
  - apply (proj1 (T Demo.network_no_field _ eq_refl eq_refl)
             [(u "name", VStr (u "r"))]); reflexivity.
  - apply (proj1 (proj2 (T Demo.network_empty_field _ eq_refl eq_refl))
             [(u "default_branch", VStr [])]); reflexivity.
  - apply (proj1 (proj2 (proj2 (T [] _ eq_refl eq_refl))) RequestException);
      reflexivity.
  - apply (proj1 (proj2 (proj2 (proj2
             (T Demo.network_empty_field _ eq_refl eq_refl)))) 1).
    exists (VStr []). split; by_computation.
  - apply (proj2 (proj2 (proj2 (proj2 (T [] _ eq_refl eq_refl)))) VNone);
      by_computation.
Defined.

(** C3 on blob [B5], whose text is ["a\n\n  \nb\n"]. *)
Lemma C3_witness :
  run (on Demo.blobs)
    (process_file py b64 utf out es (Demo.file "x.txt" "B5") Demo.start) 0
  = (Ok {| markdown_content :=
             markdown_content Demo.start ++
               [heading py (path (Demo.file "x.txt" "B5")); u "```";
                spec_filtered_body Demo.sample_text;
                u "```" ++ [nl]; u "---" ++ [nl]];
           processed_count := processed_count Demo.start + 1;
           skipped_count := skipped_count Demo.start |}, 1)
  /\ splitlines (spec_filtered_body Demo.sample_text)
     = filter (fun line => negb (blank line)) (splitlines Demo.sample_text)
  /\ spec_filtered_body (u "a" ++ [nl; nl] ++ u "  " ++ [nl] ++ u "b" ++ [nl])
     = u "a" ++ [nl] ++ u "b".
Proof.
  apply (@C3_blank_line_filter py b64 utf out es nat (on Demo.blobs)
           (Demo.file "x.txt" "B5") Demo.start 0 1 Demo.sample_text);
    by_computation.
Defined.

(** C4 on a file whose URL holds a lone surrogate: the request fails,
    the UTF-8 standard output cannot encode the handler's message, and
    both [get_file_content] and the loop raise. *)
Lemma C4_witness :
  run (on Demo.blobs)
    (get_file_content py b64 utf out es (VStr Demo.odd_url)) 0
  = (Err UnicodeEncodeError, 1)
  /\ run (on Demo.blobs)
       (process_files py b64 utf out es
          [FileInfo (VStr (u "a.txt")) (VStr Demo.odd_url);
           Demo.file "b.txt" "B1"]
          Demo.start) 0
     = (Err UnicodeEncodeError, 1).
Proof.
  apply (@C4_failed_print_escapes py b64 utf out es nat (on Demo.blobs)
           (FileInfo (VStr (u "a.txt")) (VStr Demo.odd_url))
           [Demo.file "b.txt" "B1"] Demo.start 0 RequestException);
    by_computation.
Defined.


(** C6 on a listing with a directory only, and on a failing tree
    request. *)
Lemma C6_witness :
  (run (on Demo.network_no_blob)
     (get_repo_files py out es (u "o") (u "r") (VStr (u "main"))) 1
   = (Ok (Some []), 2)
   /\ run (on Demo.network_no_blob)
        (convert_repo py b64 utf out es
           (Demo.request "https://github.com/o/r")) 0
      = (Ok (JsonError 404 (msg_empty (u "o") (u "r"))), 2))
  /\ (run (on Demo.network_no_field)
        (get_repo_files py out es (u "o") (u "r") (VStr (u "main"))) 1
      = (Ok None, 2)
      /\ run (on Demo.network_no_field)
           (convert_repo py b64 utf out es
              (Demo.request "https://github.com/o/r")) 0
         = (Ok (JsonError 500 (msg_no_file_list (u "o") (u "r"))), 2)).
Proof.
  assert (T := fun t answer =>
            @C6_empty_listing_not_found py b64 utf out es nat (on t)
              [(u "url", VStr (u "https://github.com/o/r"))]
              (u "https://github.com/o/r") (u "o") (u "r") (VStr (u "main"))
              0 1 2 answer eq_refl eq_refl eq_refl eq_refl eq_refl).
  split.
  - apply (proj1 (T Demo.network_no_blob _ eq_refl eq_refl eq_refl eq_refl)
             [(u "tree", VList [Demo.item "tree" "d" "T"])]
             [Demo.item "tree" "d" "T"]); reflexivity.
  - apply (proj1 (proj2 (T Demo.network_no_field _ eq_refl eq_refl eq_refl
                           eq_refl))
             RequestException); reflexivity.
Defined.

(** C8 on [ftp://example.com/x]. *)
Lemma C8_witness :
  parse_github_url (u "ftp://example.com/x") = (None, None)
  /\ convert_repo py b64 utf out es (Demo.request "ftp://example.com/x")
     = Ret (JsonError 400 msg_invalid_url).
Proof.
  apply (@C8_unmatched_url_is_bad_input py b64 utf out es
           (u "ftp://example.com/x")
           [(u "url", VStr (u "ftp://example.com/x"))]); reflexivity.
Defined.

(** C9 on [http://github.com/o/r.git/tree/main]. *)
Lemma C9_witness :
  parse_github_url
    (u "http://github.com/" ++ u "o" ++ [slash] ++ u "r.git" ++ u "/tree/main")
  = (Some (u "o"), Some (strip_git (u "r.git")))
  /\ parse_github_url
       (u "http://github.com/" ++ u "o" ++ [slash] ++ u "r.git" ++ u "/tree/main")
     = parse_github_url
         (u "https://github.com/" ++ u "o" ++ [slash] ++ u "r.git"
            ++ u "/tree/main").
Proof.
  apply (@C9_http_accepted (u "o") (u "r.git") (u "/tree/main"));
    try reflexivity; discriminate.
Defined.

(** C10 on the empty blob [B4] and on blob [B3], two blank lines. *)
Lemma C10_witness :
  run (on Demo.blobs)
    (process_file py b64 utf out es (Demo.file "empty" "B4") Demo.start) 0
  = (Ok {| markdown_content :=
             markdown_content Demo.start ++
               [heading py (path (Demo.file "empty" "B4")); u "```"; [];
                u "```" ++ [nl]; u "---" ++ [nl]];
           processed_count := processed_count Demo.start + 1;
           skipped_count := skipped_count Demo.start |}, 1)
  /\ run (on Demo.blobs)
       (process_file py b64 utf out es (Demo.file "blank" "B3") Demo.start) 0
     = (Ok {| markdown_content :=
                markdown_content Demo.start ++
                  [heading py (path (Demo.file "blank" "B3")); u "```"; [];
                   u "```" ++ [nl]; u "---" ++ [nl]];
              processed_count := processed_count Demo.start + 1;
              skipped_count := skipped_count Demo.start |}, 1).
Proof.
  split.
  - apply (@C10_blank_file_is_processed py b64 utf out es nat (on Demo.blobs)
             (Demo.file "empty" "B4") Demo.start 0 1 []).
    + by_computation.
    + by_computation.
    + left. reflexivity.
  - apply (@C10_blank_file_is_processed py b64 utf out es nat (on Demo.blobs)
             (Demo.file "blank" "B3") Demo.start 0 1 (u " " ++ [nl; nl])).
    + by_computation.
    + by_computation.
    + right. repeat constructor.
Defined.

(** ** The further properties on sample inputs *)

(** X2 on [https://github.com/o/r.git/tree/main]. *)
Lemma X2_witness :
  parse_github_url (u "https://github.com/" ++ u "o" ++ [slash] ++ u "r.git")
  = (Some (u "o"), Some (strip_git (u "r.git")))
  /\ parse_github_url
       (u "https://github.com/" ++ u "o" ++ [slash] ++ u "r.git" ++ [slash]
          ++ u "tree/main")
     = parse_github_url
         (u "https://github.com/" ++ u "o" ++ [slash] ++ u "r.git").
Proof.
  apply (@X2_https_path_ignored (u "o") (u "r.git") (u "tree/main"));
    try reflexivity; discriminate.
Defined.

(** X3 on [git@github.com:o/r.git.git]. *)
Lemma X3_witness :
  parse_github_url
    (u "git@github.com:" ++ u "o" ++ [slash] ++ u "r.git" ++ u ".git")
  = (Some (u "o"), Some (strip_git (u "r.git"))).
Proof.
  apply (@X3_ssh_shape (u "o") (u "r.git")); try reflexivity; discriminate.
Defined.

(** X4 on the profile URL [https://github.com/torvalds]. *)
Lemma X4_witness :
  parse_github_url (u "https://github.com/" ++ u "torvalds") = (None, None)
  /\ convert_repo py b64 utf out es (Demo.request "https://github.com/torvalds")
     = Ret (JsonError 400 msg_invalid_url).
Proof.
  apply (@X4_https_without_repo_rejected py b64 utf out es (u "torvalds")
           [(u "url", VStr (u "https://github.com/torvalds"))]); reflexivity.
Defined.

(** X5 on [https://github.com/o/.git]. *)
Lemma X5_witness :
  parse_github_url (u "https://github.com/" ++ u "o" ++ [slash] ++ u ".git" ++ [])
  = (Some (u "o"), Some [])
  /\ convert_repo py b64 utf out es (Demo.request "https://github.com/o/.git")
     = Ret (JsonError 400 msg_invalid_url).
Proof.
  apply (@X5_dot_git_repo_rejected py b64 utf out es (u "o") []
           [(u "url", VStr (u "https://github.com/o/.git"))]);
    try reflexivity; discriminate.
Defined.

(** X6 on the body [None] and on the body [{"link": None}]. *)
Lemma X6_witness :
  convert_repo py b64 utf out es VNone = Ret (JsonError 400 msg_missing_url)
  /\ convert_repo py b64 utf out es (VDict [(u "link", VNone)])
     = Ret (JsonError 400 msg_missing_url).
Proof.
  split.
  - apply (@X6_missing_url py b64 utf out es VNone). left. reflexivity.
  - apply (@X6_missing_url py b64 utf out es (VDict [(u "link", VNone)])).
    right. exists [(u "link", VNone)]. split; reflexivity.
Defined.

(** X7 on the body [{"url": 5}]. *)
Lemma X7_witness :
  convert_repo py b64 utf out es (VDict [(u "url", VInt 5)]) = Raise TypeError.
Proof.
  apply (@X7_url_not_a_string py b64 utf out es [(u "url", VInt 5)] (VInt 5)).
  - reflexivity.
  - intros s. discriminate.
Defined.

(** X8 on a metadata answer that is a list. *)
Lemma X8_witness :
  run (on [(Demo.repo_url, Ok (VList []))])
    (get_default_branch out es (u "o") (u "r")) 0
  = (Err AttributeError, 1)
  /\ run (on [(Demo.repo_url, Ok (VList []))])
       (convert_repo py b64 utf out es
          (Demo.request "https://github.com/o/r")) 0
     = (Err AttributeError, 1).
Proof.
  apply (@X8_metadata_not_an_object py b64 utf out es nat
           (on [(Demo.repo_url, Ok (VList []))])
           [(u "url", VStr (u "https://github.com/o/r"))]
           (u "https://github.com/o/r") (u "o") (u "r") 0 1 (VList []));
    try reflexivity.
  intros fields. discriminate.
Defined.

(** X9 on a listing whose second item has no [type]. *)
Lemma X9_witness :
  (exists files,
      run (on [(Demo.repo_url, Ok (VDict []));
               (Demo.tree_url,
                Ok (VDict [(u "tree",
                            VList [Demo.item "blob" "a.txt" "B1";
                                   VDict [(u "path", VStr (u "b"))]])]))])
        (get_repo_files py out es (u "o") (u "r") (VStr (u "main"))) 1
      = (Ok files, 2)
      /\ (files = None
          <-> forallb well_formed_item
                [Demo.item "blob" "a.txt" "B1"; VDict [(u "path", VStr (u "b"))]]
              = false))
  /\ run (on [(Demo.repo_url, Ok (VDict []));
              (Demo.tree_url,
               Ok (VDict [(u "tree",
                           VList [Demo.item "blob" "a.txt" "B1";
                                  VDict [(u "path", VStr (u "b"))]])]))])
       (convert_repo py b64 utf out es
          (Demo.request "https://github.com/o/r")) 0
     = (Ok (JsonError 500 (msg_no_file_list (u "o") (u "r"))), 2).
Proof.
  assert (P : forall e, out (log_tree_data_error es e) = true)
    by (intros e; destruct e; reflexivity).
  destruct (@X9_malformed_item_discards_listing py b64 utf out es nat
              (on [(Demo.repo_url, Ok (VDict []));
                   (Demo.tree_url,
                    Ok (VDict [(u "tree",
                                VList [Demo.item "blob" "a.txt" "B1";
                                       VDict [(u "path", VStr (u "b"))]])]))])
              [(u "url", VStr (u "https://github.com/o/r"))]
              (u "https://github.com/o/r") (u "o") (u "r") (VStr (u "main"))
              0 1 2
              [(u "tree",
                VList [Demo.item "blob" "a.txt" "B1";
                       VDict [(u "path", VStr (u "b"))]])]
              [Demo.item "blob" "a.txt" "B1"; VDict [(u "path", VStr (u "b"))]]
              eq_refl eq_refl eq_refl eq_refl eq_refl eq_refl eq_refl eq_refl
              eq_refl eq_refl eq_refl P)
    as [A B].
  split; [exact A | apply B; reflexivity].
Defined.

(** X10 on a listing answer without [tree]. *)
Lemma X10_witness :
  run (on [(Demo.repo_url, Ok (VDict []));
           (Demo.tree_url, Ok (VDict [(u "sha", VStr (u "x"))]))])
    (get_repo_files py out es (u "o") (u "r") (VStr (u "main"))) 1
  = (Ok (Some []), 2)
  /\ run (on [(Demo.repo_url, Ok (VDict []));
              (Demo.tree_url, Ok (VDict [(u "sha", VStr (u "x"))]))])
       (convert_repo py b64 utf out es
          (Demo.request "https://github.com/o/r")) 0
     = (Ok (JsonError 404 (msg_empty (u "o") (u "r"))), 2).
Proof.
  apply (@X10_listing_without_tree py b64 utf out es nat
           (on [(Demo.repo_url, Ok (VDict []));
                (Demo.tree_url, Ok (VDict [(u "sha", VStr (u "x"))]))])
           [(u "url", VStr (u "https://github.com/o/r"))]
           (u "https://github.com/o/r") (u "o") (u "r") (VStr (u "main"))
           0 1 2 [(u "sha", VStr (u "x"))]); reflexivity.
Defined.

(** X11 on the sample repository: four requests. *)
Lemma X11_witness :
  exists st,
    run (on Demo.network)
      (convert py b64 utf out es (Demo.request "https://github.com/o/r")) 0
    = (Ok (Converted st), 4)
    /\ exists link owner repo branch files w1 w2,
        subscript (Demo.request "https://github.com/o/r") (u "url")
        = Ok (VStr link)
        /\ parse_github_url link = (Some owner, Some repo)
        /\ run (on Demo.network) (get_default_branch out es owner repo) 0
           = (Ok branch, w1)
        /\ run (on Demo.network)
             (get_repo_files py out es owner repo branch) w1
           = (Ok (Some files), w2)
        /\ requests (on Demo.network)
             (convert_repo py b64 utf out es
                (Demo.request "https://github.com/o/r")) 0
           = repo_api_url owner repo :: tree_api_url py owner repo branch
             :: map url files.
Proof.
  eexists. split; [by_computation |].
  eapply (@X11_requests_of_a_conversion py b64 utf out es nat
            (on Demo.network) (Demo.request "https://github.com/o/r") 0 4).
  by_computation.
Defined.

(** X12 on the repository whose listing holds a directory only. *)
Lemma X12_witness :
  length (requests (on Demo.network_no_blob)
            (convert_repo py b64 utf out es
               (Demo.request "https://github.com/o/r")) 0)
  <= 2.
Proof.
  apply (@X12_no_blob_request_on_failure py b64 utf out es nat
           (on Demo.network_no_blob) (Demo.request "https://github.com/o/r")
           0 2 404 (msg_empty (u "o") (u "r"))).
  by_computation.
Defined.

(** X13 on the sample repository: one processed, one skipped, nine
    strings. *)
Lemma X13_witness :
  exists st,
    run (on Demo.network)
      (convert py b64 utf out es (Demo.request "https://github.com/o/r")) 0
    = (Ok (Converted st), 4)
    /\ exists link owner repo branch files w1 w2,
        subscript (Demo.request "https://github.com/o/r") (u "url")
        = Ok (VStr link)
        /\ parse_github_url link = (Some owner, Some repo)
        /\ run (on Demo.network) (get_default_branch out es owner repo) 0
           = (Ok branch, w1)
        /\ run (on Demo.network)
             (get_repo_files py out es owner repo branch) w1
           = (Ok (Some files), w2)
        /\ processed_count st
           = length (filter is_text
                       (fetched b64 utf (on Demo.network) files w2))
        /\ skipped_count st
           = length (filter (fun s => negb (is_text s))
                       (fetched b64 utf (on Demo.network) files w2))
        /\ length (markdown_content st)
           = 1 + 5 * processed_count st + 3 * skipped_count st.
Proof.
  eexists. split; [by_computation |].
  eapply (@X13_counts_by_kind py b64 utf out es nat (on Demo.network)
            (Demo.request "https://github.com/o/r") 0 4).
  by_computation.
Defined.

(** X18 on the lines ["x"] and [" y"]. *)
Lemma X18_witness :
  process_content (u "x" ++ [cr; nl] ++ u " y") = u "x" ++ [nl] ++ u " y"
  /\ (forall sep, is_linebreak sep = true ->
        process_content (u "x" ++ [sep] ++ u " y") = u "x" ++ [nl] ++ u " y"
        /\ process_content (u "x" ++ [sep]) = u "x").
Proof.
  apply (@X18_line_endings_normalised (u "x") (u " y")); reflexivity.
Defined.

(** X20 on a standard output that takes every text: a failing request
    ([B7]), an encoding that is not base64 ([B6]), bytes that are not
    UTF-8 ([B2]), and the loop over the three. *)
Lemma X20_witness :
  fst (run (on Demo.blobs)
         (get_file_content py b64 utf Lib.lossy_stdout es (VStr (u "B7"))) 0)
  = Ok None
  /\ fst (run (on Demo.blobs)
            (get_file_content py b64 utf Lib.lossy_stdout es
               (VStr (u "B6"))) 0)
     = Ok None
  /\ fst (run (on Demo.blobs)
            (get_file_content py b64 utf Lib.lossy_stdout es
               (VStr (u "B2"))) 0)
     = Ok None
  /\ run (on Demo.blobs)
       (process_files py b64 utf Lib.lossy_stdout es
          [Demo.file "a" "B7"; Demo.file "b" "B6"; Demo.file "c" "B2"]
          Demo.start) 0
     = (Ok (add_sections py Demo.start
              (fetched b64 utf (on Demo.blobs)
                 [Demo.file "a" "B7"; Demo.file "b" "B6"; Demo.file "c" "B2"]
                 0)),
        snd (fetch_all b64 utf (on Demo.blobs)
               [Demo.file "a" "B7"; Demo.file "b" "B6"; Demo.file "c" "B2"]
               0))
  /\ fst (run (on Demo.blobs)
            (process_file py b64 utf Lib.lossy_stdout es
               (Demo.file "b.bin" "B2") Demo.start) 0)
     = Ok {| markdown_content :=
               markdown_content Demo.start ++
                 [heading py (path (Demo.file "b.bin" "B2")); skip_notice;
                  u "---" ++ [nl]];
             processed_count := processed_count Demo.start;
             skipped_count := skipped_count Demo.start + 1 |}.
Proof.
  assert (T := fun name l : string =>
            @X20_failures_absorbed_when_printable py b64 utf Lib.lossy_stdout
              es nat (on Demo.blobs) (Demo.file name l) Demo.start 0
              (fun _ => eq_refl)).
  split; [| split; [| split; [| split]]].
  - apply (proj1 (proj2 (T "a"%string "B7"%string)) RequestException). reflexivity.
  - apply (proj1 (proj2 (proj2 (T "b"%string "B6"%string)))
             (VDict [(u "encoding", VStr (u "utf-8"));
                     (u "content", VStr (u "hi"))])
             (VStr (u "utf-8"))); reflexivity.
  - apply (proj1 (proj2 (proj2 (proj2 (T "c"%string "B2"%string))))
             (VDict [(u "encoding", VStr (u "base64"));
                     (u "content", VStr (u "/w=="))])
             (VStr (u "base64")) (VStr (u "/w=="))
             [Byte.xff]); reflexivity.
  - apply (proj1 (proj2 (proj2 (proj2 (proj2 (T "a"%string "B7"%string)))))).
  - apply (proj2 (proj2 (proj2 (proj2 (proj2 (T "b.bin"%string "B2"%string)))))).
    by_computation.
Defined.
